(** * The two-phase parallel slide-deck pipeline of [prompts/parallel-orchestrator.py]

    A shallow embedding of the orchestration core: the brief extractor
    ([parse_slide_briefs]), the per-unit agent ([run_slide_agent]), the
    dispatcher ([run_parallel_slide_agents]), the assembler
    ([assemble_final_document]), the statistics of [save_results] and the
    sequencing of [main].

    Conventions of the embedding.
    - A Python [str] is a [string]; every character stands for one code
      point below 256.
    - An instance of Python's [Exception] is an [exception] carrying
      [str(e)]; code that may raise lives in the [outcome] monad.
    - A Python [int] is unbounded ([N]); [int] on a string of digits raises
      above the default limit of 4300 digits.
    - A [float] is the rational number ([Q]) that it denotes; the float
      operations round, and how they round is left open ([FloatArith]).
    - Calls to [print] have no influence on any value and are left out. *)

From Stdlib Require Import String Ascii List Bool Arith NArith QArith Lia.
From Stdlib Require Import Permutation Sorted DecimalString.
Import ListNotations.

Local Open Scope list_scope.
Local Open Scope string_scope.

(** ** Exceptions *)

(** An instance of Python's [Exception], with what [str(e)] gives. The
    exceptions outside that class ([KeyboardInterrupt], [SystemExit]),
    which an [except Exception] clause does not catch, are not modelled. *)
Inductive exception := Exception (msg : string).

(** [str(e)] *)
Definition message (e : exception) : string :=
  match e with Exception msg => msg end.

(** A computation that returns a value or raises. *)
Inductive outcome (A : Type) :=
| Returns (a : A)
| Raises (e : exception).
Arguments Returns {A} a.
Arguments Raises {A} e.

Definition bind {A B : Type} (c : outcome A) (k : A -> outcome B) : outcome B :=
  match c with
  | Returns a => k a
  | Raises e => Raises e
  end.

Notation "x <- c ;; k" := (bind c (fun x => k))
  (at level 61, c at next level, right associativity).

(** ** Python strings *)

Module PyStr.

(** The line feed, written [\n] in the source. *)
Definition nl : string := String (ascii_of_nat 10) "".

(** [s.startswith(p)], returning what follows the prefix. *)
Fixpoint strip_prefix (p s : string) : option string :=
  match p with
  | "" => Some s
  | String a p' =>
      match s with
      | "" => None
      | String b s' => if Ascii.eqb a b then strip_prefix p' s' else None
      end
  end.

Definition startswith (p s : string) : bool :=
  match strip_prefix p s with Some _ => true | None => false end.

(** The regex class [\d] on code points below 256: the ten ASCII digits. *)
Definition is_digit (c : ascii) : bool :=
  let n := N_of_ascii c in ((48 <=? n) && (n <=? 57))%N.

(** What [str.strip()] removes, on code points below 256: TAB, LF, VT, FF,
    CR, FS, GS, RS, US, space, NEL and the no-break space. *)
Definition is_space (c : ascii) : bool :=
  let n := N_of_ascii c in
  (((9 <=? n) && (n <=? 13)) || ((28 <=? n) && (n <=? 32))
   || (n =? 133) || (n =? 160))%N.

Fixpoint lstrip (s : string) : string :=
  match s with
  | "" => ""
  | String c s' => if is_space c then lstrip s' else s
  end.

Fixpoint rstrip (s : string) : string :=
  match s with
  | "" => ""
  | String c s' =>
      match rstrip s' with
      | "" => if is_space c then "" else String c ""
      | r => String c r
      end
  end.

(** [s.strip()] *)
Definition strip (s : string) : string := rstrip (lstrip s).

(** All characters of [s] are digits. *)
Fixpoint all_digits (s : string) : bool :=
  match s with
  | "" => true
  | String c s' => is_digit c && all_digits s'
  end.

(** The longest run of digits at the head of [s], and the rest. *)
Fixpoint take_digits (s : string) : string * string :=
  match s with
  | "" => ("", "")
  | String c s' =>
      if is_digit c
      then let (d, r) := take_digits s' in (String c d, r)
      else ("", s)
  end.

Fixpoint int_acc (acc : N) (s : string) : N :=
  match s with
  | "" => acc
  | String c s' => int_acc (10 * acc + (N_of_ascii c - 48))%N s'
  end.

(** The number that a string of ASCII digits denotes in base ten. *)
Definition decimal (s : string) : N := int_acc 0%N s.

(** [str(n)] for a non-negative integer. *)
Definition str (n : N) : string := NilEmpty.string_of_uint (N.to_uint n).

(** The limit on the digits of a string that [int] converts: the default
    of [sys.get_int_max_str_digits()], which the source does not change. *)
Definition int_max_str_digits : N := 4300.

Definition within_digit_limit (s : string) : bool :=
  (N.of_nat (String.length s) <=? int_max_str_digits)%N.

(** The [ValueError] of [int] for a string with too many digits. *)
Definition digit_limit_error (s : string) : exception :=
  Exception
    ("Exceeds the limit (4300 digits) for integer string conversion: value has "
     ++ str (N.of_nat (String.length s))
     ++ " digits; use sys.set_int_max_str_digits() to increase the limit").

(** [int(s)] on a string of ASCII digits. *)
Definition int (s : string) : outcome N :=
  if within_digit_limit s then Returns (decimal s)
  else Raises (digit_limit_error s).

(** [s[k:]] *)
Fixpoint drop (k : nat) (s : string) : string :=
  match k, s with
  | O, _ => s
  | S k', String _ s' => drop k' s'
  | S _, "" => ""
  end.

(** [''.join(parts)] *)
Definition concat_all (parts : list string) : string :=
  fold_right append "" parts.

End PyStr.
Import PyStr.

(** ** The regular expressions of the source

    Every pattern of the source has the shape [L(.*?)(?=A1|...|An)] or
    [(H.*?)(?=A1|...|An)] under [re.DOTALL]: a fixed opening, a lazy run of
    arbitrary characters, and a look-ahead. *)

Module Re.

(** [.*?] followed by a look-ahead [stop]: the shortest run of characters
    after which the look-ahead holds. [None] when it never does. *)
Fixpoint lazy_until (stop : string -> bool) (s : string)
  : option (string * string) :=
  if stop s then Some ("", s)
  else match s with
       | "" => None
       | String c s' =>
           match lazy_until stop s' with
           | Some (body, rest) => Some (String c body, rest)
           | None => None
           end
       end.

(** [$] without [re.MULTILINE]: the end of the string, or just before a
    line feed that ends the string. *)
Definition at_dollar (s : string) : bool :=
  match s with
  | "" => true
  | String c "" => Ascii.eqb c (ascii_of_nat 10)
  | _ => false
  end.

(** [\Z]: the end of the string. *)
Definition at_Z (s : string) : bool :=
  match s with "" => true | _ => false end.

(** [## SLIDE \d+ BRIEF:] anchored at the head of [s]: the digits matched
    by [\d+] and what follows the header. [\d+] is greedy; giving a digit
    back never helps, since the character after a shorter run is a digit
    and the pattern wants a space there. *)
Definition match_header (s : string) : option (string * string) :=
  match strip_prefix "## SLIDE " s with
  | None => None
  | Some s1 =>
      match take_digits s1 with
      | ("", _) => None
      | (ds, s2) =>
          match strip_prefix " BRIEF:" s2 with
          | Some rest => Some (ds, rest)
          | None => None
          end
      end
  end.

Definition is_header (s : string) : bool :=
  match match_header s with Some _ => true | None => false end.

(** The text matched by the header pattern with digits [ds], and the same
    text after its first character. *)
Definition header_tail (ds : string) : string :=
  "# SLIDE " ++ ds ++ " BRIEF:".

Definition header_text (ds : string) : string :=
  String "#" (header_tail ds).

(** The look-ahead [(?=## SLIDE \d+ BRIEF:|## NEXT STEPS|$)]. *)
Definition slide_stop (s : string) : bool :=
  is_header s || startswith "## NEXT STEPS" s || at_dollar s.

(** [slide_pattern] anchored at the head of [s]: group 1 and the rest. *)
Definition match_slide_pattern (s : string) : option (string * string) :=
  match match_header s with
  | None => None
  | Some (ds, after) =>
      match lazy_until slide_stop after with
      | Some (body, rest) => Some (header_text ds ++ body, rest)
      | None => None
      end
  end.

(** [re.findall(slide_pattern, s, re.DOTALL)]: the scan tries every
    position from left to right; after a match it resumes where the match
    ended, that is, it passes over the [skip] positions the match covers. *)
Fixpoint findall_skip (skip : nat) (s : string) : list string :=
  match s with
  | "" => []
  | String _ s' =>
      match skip with
      | S k => findall_skip k s'
      | O =>
          match match_slide_pattern s with
          | Some (g, _) => g :: findall_skip (String.length g - 1) s'
          | None => findall_skip 0 s'
          end
      end
  end.

Definition findall_slide_pattern (s : string) : list string :=
  findall_skip 0 s.

(** [re.search(r'## SLIDE (\d+) BRIEF:', s)]: group 1 of the leftmost
    match. *)
Fixpoint search_header (s : string) : option string :=
  match match_header s with
  | Some (ds, _) => Some ds
  | None =>
      match s with
      | "" => None
      | String _ s' => search_header s'
      end
  end.

(** [re.search(lit + r'(.*?)(?=...)', s, re.DOTALL)]: group 1 of the
    leftmost match. *)
Fixpoint search_section (lit : string) (stop : string -> bool) (s : string)
  : option string :=
  let here :=
    match strip_prefix lit s with
    | Some after =>
        match lazy_until stop after with
        | Some (body, _) => Some body
        | None => None
        end
    | None => None
    end in
  match here with
  | Some body => Some body
  | None =>
      match s with
      | "" => None
      | String _ s' => search_section lit stop s'
      end
  end.

End Re.
Import Re.

(** ** Phase 1 output decomposition *)

(** A slide brief: the dict [{'slide_number': ..., 'brief': ...}]. *)
Record Brief := mkBrief {
  brief_slide_number : N;
  brief : string
}.

(** One turn of the loop of [parse_slide_briefs] over a match [m]. *)
Definition add_brief (so_far : outcome (list Brief)) (m : string)
  : outcome (list Brief) :=
  briefs <- so_far ;;
  match search_header m with
  | Some ds =>
      slide_num <- int ds ;;
      Returns (briefs ++ [ {| brief_slide_number := slide_num;
                              brief := strip m |} ])%list
  | None => Returns briefs
  end.

(** [parse_slide_briefs(master_output)] *)
Definition parse_slide_briefs (master_output : string)
  : outcome (list Brief) :=
  let matches := findall_slide_pattern master_output in
  fold_left add_brief matches (Returns []).

(** [extract_brand_and_design_system(master_output)] *)
Definition extract_brand_and_design_system (master_output : string) : string :=
  let brand_section :=
    match search_section "## BRAND RESEARCH"
            (fun s => startswith "## DECK ARCHITECTURE" s || at_dollar s)
            master_output with
    | Some g => strip g
    | None => ""
    end in
  let design_section :=
    match search_section "## DESIGN SYSTEM"
            (fun s => startswith "## SLIDE BRIEFS" s || at_dollar s)
            master_output with
    | Some g => strip g
    | None => ""
    end in
  "## BRAND GUIDELINES

" ++ brand_section ++ "

---

## DESIGN SYSTEM

" ++ design_section ++ "
".

(** ** Floats

    A Python float is modelled by the rational number it denotes, and
    comparisons of floats are comparisons of these numbers; the infinities
    and NaN, which no reading of the clock gives, are left out. Addition,
    subtraction, division and [sum] round; how they round is not fixed
    here ([sum] adds from left to right in some versions of Python and
    compensates the rounding errors in others). The operations are taken
    from [FloatArith], and what is proved holds for every way of rounding. *)

Class FloatArith := {
  float_add : Q -> Q -> Q;
  float_sub : Q -> Q -> Q;
  float_div : Q -> Q -> Q;
  float_sum : list Q -> Q
}.

(** Arithmetic without rounding: what the float operations compute
    whenever every exact result is itself a float, as it is on the
    concrete inputs of this file. *)
Definition exact_floats : FloatArith :=
  {| float_add := Qplus;
     float_sub := Qminus;
     float_div := Qdiv;
     float_sum := fun ts => fold_left Qplus ts 0 |}.

(** Rounding keeps the sign of a difference: the difference of a float and
    a smaller or equal one is not negative, and that of a float and a
    smaller one is positive. *)
Definition difference_keeps_order {fa : FloatArith} : Prop :=
  forall x y, x <= y -> 0 <= float_sub y x.

Definition difference_keeps_strict_order {fa : FloatArith} : Prop :=
  forall x y, x < y -> 0 < float_sub y x.

(** ** Phase 2: one slide agent *)

(** One part of a service response: [part.thought] and [part.text]. *)
Record Part := mkPart {
  thought : bool;
  text : option string
}.

(** The response of the service as the source reads it:
    [response.candidates[0].content.parts]. The SDK declares [candidates],
    [content] and [parts] optional: each may be [None]. *)
Record Content := mkContent {
  parts : option (list Part)
}.

Record Candidate := mkCandidate {
  content : option Content
}.

Record Response := mkResponse {
  candidates : option (list Candidate)
}.

(** A response with one candidate that holds the parts [ps]. *)
Definition one_candidate (ps : list Part) : Response :=
  {| candidates := Some [ {| content := Some {| parts := Some ps |} |} ] |}.

(** What one run of [run_slide_agent] meets outside itself: the template
    file, the client constructor, the successive readings of [time.time()]
    and the generation service. *)
Record AgentEnv := mkAgentEnv {
  load_slide_template : outcome string;
  new_client : outcome unit;
  clock : nat -> Q;
  generate_content : string -> outcome Response
}.

(** The dict returned for one slide. A key that the dict may lack is an
    [option]: [None] is the absent key. [output] is [Some None] for the
    Python value [None]. *)
Record Result := mkResult {
  slide_number : N;
  output : option (option string);
  elapsed_time : option Q;
  success : bool;
  error : option string
}.

(** [sep.join(items)]; an item that is not a [str] raises [TypeError]. *)
Fixpoint join_from (sep : string) (i : N) (items : list (option string))
  : outcome string :=
  match items with
  | [] => Returns ""
  | None :: _ =>
      Raises (Exception ("sequence item " ++ str i
                         ++ ": expected str instance, NoneType found"))
  | Some t :: rest =>
      tl <- join_from sep (i + 1) rest ;;
      Returns (match rest with [] => t | _ => t ++ sep ++ tl end)
  end.

Definition join (sep : string) (items : list (option string)) : outcome string :=
  join_from sep 0 items.

(** [response.candidates[0].content.parts], up to the point where the
    [for] statement starts to iterate: [None[0]] and iterating [None] raise
    [TypeError], [[][0]] raises [IndexError], [None.parts] raises
    [AttributeError]. *)
Definition first_candidate_parts (response : Response) : outcome (list Part) :=
  match candidates response with
  | None => Raises (Exception "'NoneType' object is not subscriptable")
  | Some [] => Raises (Exception "list index out of range")
  | Some (candidate :: _) =>
      match content candidate with
      | None =>
          Raises (Exception "'NoneType' object has no attribute 'parts'")
      | Some c =>
          match parts c with
          | None => Raises (Exception "'NoneType' object is not iterable")
          | Some ps => Returns ps
          end
      end
  end.

(** Lines 196-202: the text of the parts of the first candidate that are
    not thoughts, joined by blank lines. *)
Definition slide_output_of (response : Response) : outcome string :=
  ps <- first_candidate_parts response ;;
  join (nl ++ nl) (map text (filter (fun part => negb (thought part)) ps)).

Definition slide_prompt_of (slide_number : N)
  (brand_and_design slide_brief slide_template : string) : string :=
  "# SLIDE SPECIFICATION TASK

You are generating the specification for SLIDE " ++ str slide_number ++ ".

---

" ++ brand_and_design ++ "

---

" ++ slide_brief ++ "

---

" ++ slide_template ++ "
".

(** [run_slide_agent(slide_number, slide_brief, brand_and_design)]. The
    template and the client are set up before the [try]; the service call
    and the extraction of its answer are inside it. *)
Definition run_slide_agent {fa : FloatArith} (env : AgentEnv) (slide_number : N)
  (slide_brief brand_and_design : string) : outcome Result :=
  slide_template <- load_slide_template env ;;
  let slide_prompt :=
    slide_prompt_of slide_number brand_and_design slide_brief slide_template in
  _ <- new_client env ;;
  let start_time := clock env 0 in
  match generate_content env slide_prompt with
  | Returns response =>
      let elapsed := float_sub (clock env 1) start_time in
      match slide_output_of response with
      | Returns slide_output =>
          Returns {| slide_number := slide_number;
                     output := Some (Some slide_output);
                     elapsed_time := Some elapsed;
                     success := true;
                     error := None |}
      | Raises e =>
          let elapsed := float_sub (clock env 2) start_time in
          Returns {| slide_number := slide_number;
                     output := Some None;
                     elapsed_time := Some elapsed;
                     success := false;
                     error := Some (message e) |}
      end
  | Raises e =>
      let elapsed := float_sub (clock env 1) start_time in
      Returns {| slide_number := slide_number;
                 output := Some None;
                 elapsed_time := Some elapsed;
                 success := false;
                 error := Some (message e) |}
  end.

(** The prompts that one run of [run_slide_agent] sends to the service. *)
Definition slide_agent_calls (env : AgentEnv) (slide_number : N)
  (slide_brief brand_and_design : string) : list string :=
  match load_slide_template env, new_client env with
  | Returns slide_template, Returns _ =>
      [slide_prompt_of slide_number brand_and_design slide_brief slide_template]
  | _, _ => []
  end.

(** ** Phase 2: the dispatcher *)

(** An entry of [future_to_slide]: the future, given by what
    [future.result()] does, and the slide number stored under it. Futures
    are hashed by identity, so the dict has one entry per submitted brief. *)
Record Future := mkFuture {
  future_slide : N;
  future_result : outcome Result;
  future_calls : list string
}.

(** [results.sort(key=lambda x: x['slide_number'])]. [list.sort] is stable:
    results with the same slide number keep their relative order. *)
Fixpoint insert_by_slide_number (r : Result) (sorted : list Result)
  : list Result :=
  match sorted with
  | [] => [r]
  | h :: t =>
      if (slide_number r <=? slide_number h)%N
      then r :: sorted
      else h :: insert_by_slide_number r t
  end.

Definition sort_by_slide_number (results : list Result) : list Result :=
  fold_right insert_by_slide_number [] results.

(** Lines 248-262: the body of the collection loop for one completed
    future. *)
Definition collect (results : list Result) (future : Future) : list Result :=
  let slide_num := future_slide future in
  match future_result future with
  | Returns result => (results ++ [result])%list
  | Raises e =>
      (results ++ [ {| slide_number := slide_num;
                       output := None;
                       elapsed_time := None;
                       success := false;
                       error := Some (message e) |} ])%list
  end.

Section Dispatcher.

Context {fa : FloatArith}.

(** The environment in which the [i]-th submitted unit runs. *)
Variable agent_env : nat -> AgentEnv.

(** [concurrent.futures.as_completed]: the futures in the order in which
    they complete. *)
Variable as_completed : list Future -> list Future.

(** Lines 236-244: one task per brief, in the order of the briefs. *)
Fixpoint submit_all (i : nat) (slide_briefs : list Brief)
  (brand_and_design : string) : list Future :=
  match slide_briefs with
  | [] => []
  | b :: rest =>
      {| future_slide := brief_slide_number b;
         future_result :=
           run_slide_agent (agent_env i) (brief_slide_number b) (brief b)
             brand_and_design;
         future_calls :=
           slide_agent_calls (agent_env i) (brief_slide_number b) (brief b)
             brand_and_design |}
      :: submit_all (S i) rest brand_and_design
  end.

(** [run_parallel_slide_agents(slide_briefs, brand_and_design, max_workers)] *)
Definition run_parallel_slide_agents (slide_briefs : list Brief)
  (brand_and_design : string) (max_workers : nat) : list Result :=
  let future_to_slide := submit_all 0 slide_briefs brand_and_design in
  let results := fold_left collect (as_completed future_to_slide) [] in
  sort_by_slide_number results.

End Dispatcher.

(** ** The assembler *)

(** The fixed sections taken from the master output (lines 284-328). *)
Definition fixed_sections (master_output : string) : string :=
  let section_of lit stop :=
    match search_section lit stop master_output with
    | Some g => strip g
    | None => ""
    end in
  let exec_summary :=
    section_of "## EXECUTIVE SUMMARY" (fun s => startswith "##" s || at_Z s) in
  let brand_research :=
    section_of "## BRAND RESEARCH"
      (fun s => startswith "## DECK ARCHITECTURE" s || at_Z s) in
  let architecture :=
    section_of "## DECK ARCHITECTURE"
      (fun s => startswith "## DESIGN SYSTEM" s || at_Z s) in
  let design_system :=
    section_of "## DESIGN SYSTEM"
      (fun s => startswith "## SLIDE BRIEFS" s || at_Z s) in
  "# COMPLETE SLIDE DECK SPECIFICATION
## Generated with Parallel Agent Architecture

---

## EXECUTIVE SUMMARY

" ++ exec_summary ++ "

---

## BRAND RESEARCH

" ++ brand_research ++ "

---

## DECK ARCHITECTURE

" ++ architecture ++ "

---

## DESIGN SYSTEM

" ++ design_system ++ "

---

## DETAILED SLIDE SPECIFICATIONS

".

(** The closing section (lines 340-367). *)
Definition production_notes : string :=
  "
---

## PRODUCTION NOTES

This specification was generated using a parallel agent architecture:
- **Phase 1:** Master planning agent created brand research, architecture, and design system
- **Phase 2:** Individual slide agents generated detailed specifications in parallel
- **Result:** Complete, consistent, designer-ready specifications

### File Setup
- Dimensions: 1920 x 1080 (16:9)
- Resolution: 72 DPI (screen) or 300 DPI (print)
- Safe Zone: 100px from all edges

### Software Recommendations
- PowerPoint, Keynote, or Google Slides
- Figma/Sketch for design mockups

### Export Specifications
- Format: PDF (high quality) or PPTX (editable)
- Fonts: Embed fonts
- File naming: [CompanyName]_[PresentationType]_[Date]_v[Version]

---

**Generated with Gemini 2.5 Pro Parallel Architecture**
".

(** Lines 332-337: what one result adds to the document. [result['output']]
    raises [KeyError] when the key is absent and formats as [None] when the
    value is [None]. *)
Definition add_result (final_doc : string) (result : Result) : outcome string :=
  if success result then
    match output result with
    | Some (Some out) => Returns (final_doc ++ nl ++ out ++ nl ++ nl)
    | Some None => Returns (final_doc ++ nl ++ "None" ++ nl ++ nl)
    | None => Raises (Exception "'output'")
    end
  else
    let final_doc :=
      final_doc ++ nl ++ "### SLIDE " ++ str (slide_number result)
      ++ ": ERROR" ++ nl ++ nl in
    let final_doc :=
      final_doc ++ "**Error:** "
      ++ match error result with Some e => e | None => "Failed to generate" end
      ++ nl ++ nl in
    Returns (final_doc ++ "---" ++ nl ++ nl).

Fixpoint add_results (final_doc : string) (slide_results : list Result)
  : outcome string :=
  match slide_results with
  | [] => Returns final_doc
  | result :: rest =>
      final_doc <- add_result final_doc result ;;
      add_results final_doc rest
  end.

(** [assemble_final_document(master_output, slide_results)] *)
Definition assemble_final_document (master_output : string)
  (slide_results : list Result) : outcome string :=
  let final_doc := fixed_sections master_output in
  final_doc <- add_results final_doc slide_results ;;
  Returns (final_doc ++ production_notes).

(** ** Statistics *)

(** [r['elapsed_time'] for r in slide_results] *)
Fixpoint elapsed_times (slide_results : list Result) : outcome (list Q) :=
  match slide_results with
  | [] => Returns []
  | r :: rest =>
      match elapsed_time r with
      | None => Raises (Exception "'elapsed_time'")
      | Some t => ts <- elapsed_times rest ;; Returns (t :: ts)
      end
  end.

(** [sum(ts)] on floats. *)
Definition py_sum {fa : FloatArith} (ts : list Q) : Q := float_sum ts.

(** [max(ts)]: the first item is kept until a greater one is met. *)
Definition py_max (ts : list Q) : outcome Q :=
  match ts with
  | [] => Raises (Exception "max() arg is an empty sequence")
  | t :: rest =>
      Returns (fold_left (fun m x => if Qle_bool x m then m else x) rest t)
  end.

(** [a / b] on floats. *)
Definition py_div {fa : FloatArith} (a b : Q) : outcome Q :=
  if Qeq_bool b 0 then Raises (Exception "float division by zero")
  else Returns (float_div a b).

Section Orchestrator.

Context {fa : FloatArith}.

(** The format specification [:.2f]. *)
Variable format_2f : Q -> string.

(** The expression of lines 428 and 512:
    [sum(r['elapsed_time'] ...) / max(r['elapsed_time'] ...)], formatted
    with [:.2f] and followed by [x]. *)
Definition parallel_speedup (slide_results : list Result) : outcome string :=
  total <- (ts <- elapsed_times slide_results ;; Returns (py_sum ts)) ;;
  longest <- (ts <- elapsed_times slide_results ;; py_max ts) ;;
  ratio <- py_div total longest ;;
  Returns (format_2f ratio ++ "x").

(** The result of phase 1: the dict returned by [run_master_planning]. *)
Record MasterResult := mkMasterResult {
  master_output : string;
  master_thoughts : option string;
  master_elapsed_time : Q
}.

(** The [metadata] dict of [save_results], without the company name and
    the time stamp. *)
Record Metadata := mkMetadata {
  master_planning_time : Q;
  total_slides : nat;
  successful_slides : nat;
  failed_slides : nat;
  slide_times : list (N * Q * bool);
  total_generation_time : Q;
  metadata_speedup : string
}.

(** Lines 412-429 of [save_results]. Writing the files is left out. *)
Definition save_results (master_result : MasterResult)
  (slide_results : list Result) (final_document : string) : outcome Metadata :=
  let total := List.length slide_results in
  let successful := List.length (filter success slide_results) in
  let failed := List.length (filter (fun r => negb (success r)) slide_results) in
  ts <- elapsed_times slide_results ;;
  let times :=
    map (fun rt => (slide_number (fst rt), snd rt, success (fst rt)))
      (combine slide_results ts) in
  longest <- py_max ts ;;
  speedup <- parallel_speedup slide_results ;;
  Returns {| master_planning_time := master_elapsed_time master_result;
             total_slides := total;
             successful_slides := successful;
             failed_slides := failed;
             slide_times := times;
             total_generation_time :=
               float_add (master_elapsed_time master_result) longest;
             metadata_speedup := speedup |}.

(** ** The orchestrator *)

(** What a run of [main] does that the outside can observe. *)
Inductive event :=
| MasterPlanningCall
| DispatcherRun (units : nat)
| SlideAgentCall (prompt : string)
| AssemblerRun
| SaveResults.

(** What [main] has in hand when it reaches its last line. *)
Record Summary := mkSummary {
  final_document : string;
  metadata : Metadata;
  speedup_vs_sequential : string
}.

(** The outcome of phase 1: [run_master_planning] is not guarded by a
    [try], so what it raises leaves [main]. *)
Variable run_master_planning : outcome MasterResult.
Variable agent_env : nat -> AgentEnv.
Variable as_completed : list Future -> list Future.

(** [main()]: the events of the run, and [None] for the early [return] or
    the summary of a completed run. *)
Definition main : list event * outcome (option Summary) :=
  match run_master_planning with
  | Raises e => ([MasterPlanningCall], Raises e)
  | Returns master_result =>
      match parse_slide_briefs (master_output master_result) with
      | Raises e => ([MasterPlanningCall], Raises e)
      | Returns [] => ([MasterPlanningCall], Returns None)
      | Returns ((_ :: _) as slide_briefs) =>
          let brand_and_design :=
            extract_brand_and_design_system (master_output master_result) in
          let slide_results :=
            run_parallel_slide_agents agent_env as_completed slide_briefs
              brand_and_design 5 in
          let phase2 :=
            (DispatcherRun (List.length slide_briefs)
             :: map SlideAgentCall
                  (flat_map future_calls
                     (submit_all agent_env 0 slide_briefs brand_and_design)))%list in
          match assemble_final_document (master_output master_result)
                  slide_results with
          | Raises e => ((MasterPlanningCall :: phase2 ++ [AssemblerRun])%list,
                         Raises e)
          | Returns final_document =>
              let events :=
                (MasterPlanningCall :: phase2 ++ [AssemblerRun; SaveResults])%list in
              (events,
               files <- save_results master_result slide_results final_document ;;
               speedup <- parallel_speedup slide_results ;;
               Returns (Some {| final_document := final_document;
                                metadata := files;
                                speedup_vs_sequential := speedup |}))
          end
      end
  end.

End Orchestrator.

(** ** Reference definitions, in the words of the specification *)

Module Spec.

(** A span ends at the next brief header or at the next-steps marker. *)
Definition is_boundary (s : string) : bool :=
  is_header s || startswith "## NEXT STEPS" s.

(** The text from the head of [s] up to, and not including, the next
    boundary, or up to the end of the document. *)
Fixpoint span_until_boundary (s : string) : string :=
  match s with
  | "" => ""
  | String c s' =>
      if is_boundary s then "" else String c (span_until_boundary s')
  end.

(** The integer N declared by the brief header at the head of [s]. *)
Definition declared_number (s : string) : N :=
  match match_header s with
  | Some (ds, _) => decimal ds
  | None => 0%N
  end.

(** One brief per occurrence of the brief header, in scan order: the
    declared number and the span that starts at the header. *)
Fixpoint briefs (s : string) : list (N * string) :=
  match s with
  | "" => []
  | String c s' =>
      if is_header s
      then (declared_number s, String c (span_until_boundary s')) :: briefs s'
      else briefs s'
  end.

(** The number of occurrences of the brief header in [s]. *)
Fixpoint count_markers (s : string) : nat :=
  match s with
  | "" => O
  | String _ s' => ((if is_header s then 1 else 0) + count_markers s')%nat
  end.

(** Last-write-wins: of the results that carry the same slide number, only
    the last one is kept. *)
Fixpoint last_write_wins (rs : list Result) : list Result :=
  match rs with
  | [] => []
  | r :: rest =>
      if existsb (fun r' => (slide_number r' =? slide_number r)%N) rest
      then last_write_wins rest
      else r :: last_write_wins rest
  end.

(** The block of a slide that was generated. *)
Definition output_block (out : string) : string :=
  nl ++ out ++ nl ++ nl.

(** The block of a slide that failed: its number and the error message. *)
Definition error_block (n : N) (msg : string) : string :=
  nl ++ "### SLIDE " ++ str n ++ ": ERROR" ++ nl ++ nl
  ++ "**Error:** " ++ msg ++ nl ++ nl ++ "---" ++ nl ++ nl.

(** The rendered block of a result of the dispatcher. *)
Definition block_of (r : Result) : string :=
  if success r then
    match output r with
    | Some (Some out) => output_block out
    | _ => output_block "None"
    end
  else
    error_block (slide_number r)
      (match error r with Some e => e | None => "Failed to generate" end).

(** Ascending order of slide numbers. *)
Definition by_slide_number (r1 r2 : Result) : Prop :=
  (slide_number r1 <= slide_number r2)%N.

(** [part] occurs in [s]. *)
Definition occurs_in (part s : string) : Prop :=
  exists before after, s = before ++ part ++ after.

End Spec.

(** ** Auxiliary definitions *)

(** The brief made from one match of [slide_pattern] whose digits [int]
    converts. *)
Definition brief_of_match (m : string) : list Brief :=
  match search_header m with
  | Some ds => [ {| brief_slide_number := decimal ds; brief := strip m |} ]
  | None => []
  end.

(** The digits that the loop of [parse_slide_briefs] finds in a match. *)
Definition digits_of_match (m : string) : list string :=
  match search_header m with
  | Some ds => [ds]
  | None => []
  end.

(** The digits of every brief header of [s], in scan order. *)
Fixpoint header_digits (s : string) : list string :=
  match s with
  | "" => []
  | String _ s' =>
      match match_header s with
      | Some (ds, _) => ds :: header_digits s'
      | None => header_digits s'
      end
  end.

(** The first of the digit strings [dss] that is over the limit of [int]. *)
Definition over_limit (dss : list string) : option string :=
  find (fun ds => negb (within_digit_limit ds)) dss.

(** The digits of the first brief header of [s] that [int] does not
    convert, if there is one. *)
Definition over_limit_header (s : string) : option string :=
  over_limit (header_digits s).

(** The brief made from one header and its span. *)
Definition brief_of_span (p : N * string) : Brief :=
  {| brief_slide_number := fst p; brief := strip (snd p) |}.

(** The result that the collection loop records for a completed future. *)
Definition result_of_future (future : Future) : Result :=
  match future_result future with
  | Returns result => result
  | Raises e =>
      {| slide_number := future_slide future;
         output := None;
         elapsed_time := None;
         success := false;
         error := Some (message e) |}
  end.

(** The result that the dispatcher records for the unit of brief [b] run
    in [env]. *)
Definition unit_result {fa : FloatArith} (env : AgentEnv) (b : Brief)
  (brand_and_design : string)
  : Result :=
  match run_slide_agent env (brief_slide_number b) (brief b)
          brand_and_design with
  | Returns result => result
  | Raises e =>
      {| slide_number := brief_slide_number b;
         output := None;
         elapsed_time := None;
         success := false;
         error := Some (message e) |}
  end.

(** The results of all units, in the order of submission. *)
Fixpoint unit_results {fa : FloatArith} (agent_env : nat -> AgentEnv) (i : nat)
  (slide_briefs : list Brief) (brand_and_design : string) : list Result :=
  match slide_briefs with
  | [] => []
  | b :: rest =>
      unit_result (agent_env i) b brand_and_design
      :: unit_results agent_env (S i) rest brand_and_design
  end.

(** The body of the [try] block of [run_slide_agent]: the service call and
    the extraction of its answer. *)
Definition generation (env : AgentEnv) (slide_prompt : string) : outcome string :=
  response <- generate_content env slide_prompt ;;
  slide_output_of response.

(** A result as the dispatcher hands it on: a success carries its output,
    a failure carries its error message. *)
Definition well_formed (r : Result) : Prop :=
  if success r
  then exists out, output r = Some (Some out)
  else exists msg, error r = Some msg.

(** The number of slide agent calls among the events of a run. *)
Definition phase2_call_count (events : list event) : nat :=
  List.length
    (filter (fun ev => match ev with SlideAgentCall _ => true | _ => false end)
       events).

(** ** Example inputs *)

Module Example.

(** An agent whose service answers [out], with one thought in between. *)
Definition answering (out : string) : AgentEnv :=
  {| load_slide_template := Returns "TEMPLATE";
     new_client := Returns tt;
     clock := fun k => inject_Z (Z.of_nat k);
     generate_content := fun _ =>
       Returns (one_candidate [mkPart true (Some "thinking");
                               mkPart false (Some out)]) |}.

(** An agent whose service call raises [msg]. *)
Definition failing (msg : string) : AgentEnv :=
  {| load_slide_template := Returns "TEMPLATE";
     new_client := Returns tt;
     clock := fun k => inject_Z (Z.of_nat k);
     generate_content := fun _ => Raises (Exception msg) |}.

(** An agent that runs while the wall clock is set back from 10 to 5. *)
Definition clock_set_back : AgentEnv :=
  {| load_slide_template := Returns "TEMPLATE";
     new_client := Returns tt;
     clock := fun k => match k with O => 10 | _ => 5 end;
     generate_content := fun _ =>
       Returns (one_candidate [mkPart false (Some "ok")]) |}.

(** Unit 0 answers, unit 1 fails, the later ones answer. *)
Definition second_fails (i : nat) : AgentEnv :=
  match i with
  | 1%nat => failing "503 UNAVAILABLE"
  | _ => answering ("### SLIDE OUTPUT " ++ str (N.of_nat i))
  end.

(** Two briefs, the first followed by a line feed. *)
Definition two_briefs : string :=
  "## SLIDE 1 BRIEF: a
## SLIDE 2 BRIEF: b".

(** Headers for units 1, 2 and 2 again. *)
Definition duplicate_markers : string :=
  "## SLIDE 1 BRIEF: a
## SLIDE 2 BRIEF: b
## SLIDE 2 BRIEF: c
".

(** The briefs of units 1, 2 and 2 again. *)
Definition three_briefs : list Brief :=
  [ {| brief_slide_number := 1; brief := "## SLIDE 1 BRIEF: a" |};
    {| brief_slide_number := 2; brief := "## SLIDE 2 BRIEF: b" |};
    {| brief_slide_number := 2; brief := "## SLIDE 2 BRIEF: c" |} ].

(** A header with 4301 digits after a header with one. *)
Definition long_digits : string := String.concat "" (repeat "7" 4301).

Definition long_header : string :=
  "## SLIDE 1 BRIEF: a " ++ "## SLIDE " ++ long_digits ++ " BRIEF: b".

(** A master output without any brief header. *)
Definition no_markers : string :=
  "## EXECUTIVE SUMMARY
Nothing to see.
## SLIDE BRIEFS
".

(** An agent whose service returns a response without candidates. *)
Definition empty_answer : AgentEnv :=
  {| load_slide_template := Returns "TEMPLATE";
     new_client := Returns tt;
     clock := fun k => inject_Z (Z.of_nat k);
     generate_content := fun _ => Returns (mkResponse (Some [])) |}.

(** Two results with elapsed times 2 and 4. *)
Definition timed_results : list Result :=
  [ {| slide_number := 1; output := Some (Some "a"); elapsed_time := Some 2;
       success := true; error := None |};
    {| slide_number := 2; output := Some None; elapsed_time := Some 4;
       success := false; error := Some "boom" |} ].

End Example.

(** ** Further definitions *)

From Stdlib Require Import ZArith.

(** The results with slide number [n]. *)
Definition with_slide_number (n : N) (results : list Result) : list Result :=
  filter (fun r => (slide_number r =? n)%N) results.

(** A successful result that lacks the [output] key. *)
Definition lacks_output (r : Result) : Prop :=
  success r = true /\ output r = None.

(** [lit in s] *)
Fixpoint contains (lit s : string) : bool :=
  startswith lit s
  || match s with
     | "" => false
     | String _ s' => contains lit s'
     end.

(** The texts of the parts that are not thoughts. *)
Definition answer_texts (parts : list Part) : list (option string) :=
  map text (filter (fun part => negb (thought part)) parts).

(** A response that offers no list of parts: [candidates] is [None] or
    empty, or the [content] of the first candidate or its [parts] is
    [None]. *)
Definition lacks_parts (response : Response) : Prop :=
  match candidates response with
  | None => True
  | Some [] => True
  | Some (candidate :: _) =>
      match content candidate with
      | None => True
      | Some c => parts c = None
      end
  end.

(** A part of the answer that has no text. *)
Definition textless_answer (p : Part) : Prop :=
  thought p = false /\ text p = None.

(** A result with a positive elapsed time. *)
Definition timed (r : Result) : Prop :=
  exists t, elapsed_time r = Some t /\ 0 < t.

(** The set-up of [run_slide_agent] succeeds in [env]. *)
Definition sets_up (env : AgentEnv) : Prop :=
  (exists tmpl, load_slide_template env = Returns tmpl)
  /\ new_client env = Returns tt.

(** The wall clock of [env] moves forward after its first reading. *)
Definition clock_advances (env : AgentEnv) : Prop :=
  forall k, clock env 0 < clock env (S k).

(** No brief header and no next-steps marker starts anywhere in [s]. *)
Fixpoint no_boundary (s : string) : bool :=
  match s with
  | "" => true
  | String _ s' => negb (Spec.is_boundary s) && no_boundary s'
  end.

(** The text of the section opened by [lit]: group 1 of the search,
    stripped, or the empty string when the search fails. *)
Definition section_text (lit : string) (stop : string -> bool)
  (master_output : string) : string :=
  match search_section lit stop master_output with
  | Some g => strip g
  | None => ""
  end.

(** The four sections that the assembler takes from the master output. *)
Definition executive_summary_of (master_output : string) : string :=
  section_text "## EXECUTIVE SUMMARY"
    (fun s => startswith "##" s || at_Z s) master_output.

Definition brand_research_of (master_output : string) : string :=
  section_text "## BRAND RESEARCH"
    (fun s => startswith "## DECK ARCHITECTURE" s || at_Z s) master_output.

Definition architecture_of (master_output : string) : string :=
  section_text "## DECK ARCHITECTURE"
    (fun s => startswith "## DESIGN SYSTEM" s || at_Z s) master_output.

Definition design_system_of (master_output : string) : string :=
  section_text "## DESIGN SYSTEM"
    (fun s => startswith "## SLIDE BRIEFS" s || at_Z s) master_output.

(** The head of the final document around its four sections. *)
Definition final_layout (exec_summary brand_research architecture
  design_system : string) : string :=
  "# COMPLETE SLIDE DECK SPECIFICATION
## Generated with Parallel Agent Architecture

---

## EXECUTIVE SUMMARY

" ++ exec_summary ++ "

---

## BRAND RESEARCH

" ++ brand_research ++ "

---

## DECK ARCHITECTURE

" ++ architecture ++ "

---

## DESIGN SYSTEM

" ++ design_system ++ "

---

## DETAILED SLIDE SPECIFICATIONS

".

(** The context handed to every slide agent around its two sections. *)
Definition context_layout (brand_section design_section : string) : string :=
  "## BRAND GUIDELINES

" ++ brand_section ++ "

---

## DESIGN SYSTEM

" ++ design_section ++ "
".

(** [s.replace(old, new)] for a one-character [old]. *)
Fixpoint replace_char (old : ascii) (new : string) (s : string) : string :=
  match s with
  | "" => ""
  | String c s' =>
      if Ascii.eqb c old
      then new ++ replace_char old new s'
      else String c (replace_char old new s')
  end.

(** Line 385 of [save_results]: the company name as used in file names.
    [str.lower] is Python's and is not modelled: [lower] stands for it and
    nothing is assumed about it. *)
Definition company_safe (lower : string -> string) (company : string)
  : string :=
  replace_char ")" ""
    (replace_char "(" "" (replace_char " " "-" (lower company))).

(** [c in s] for one character. *)
Fixpoint has_char (c : ascii) (s : string) : bool :=
  match s with
  | "" => false
  | String a s' => Ascii.eqb a c || has_char c s'
  end.

(** [s.replace(old, new)] for a non-empty [old]: the occurrences of [old]
    are taken from left to right without overlap; [skip] counts the
    characters of an occurrence still to pass over. *)
Fixpoint replace_skip (old new : string) (skip : nat) (s : string) : string :=
  match s with
  | "" => ""
  | String c s' =>
      match skip with
      | S k => replace_skip old new k s'
      | O =>
          if startswith old s
          then new ++ replace_skip old new (String.length old - 1) s'
          else String c (replace_skip old new 0 s')
      end
  end.

Definition replace (old new s : string) : string := replace_skip old new 0 s.

(** What [run_master_planning] meets outside itself: the template file,
    the client constructor, the readings of [time.time()] and the
    generation service. *)
Record MasterEnv := mkMasterEnv {
  load_master_template : outcome string;
  new_master_client : outcome unit;
  master_clock : nat -> Q;
  generate_master_content : string -> outcome Response
}.

(** Lines 48-52: the template with its five placeholders filled in. *)
Definition master_prompt_of (master_template company content audience
  goal : string) (slide_count : N) : string :=
  let master_prompt := replace "[COMPANY_NAME]" company master_template in
  let master_prompt := replace "[CONTENT_DESCRIPTION]" content master_prompt in
  let master_prompt := replace "[AUDIENCE_TYPE]" audience master_prompt in
  let master_prompt := replace "[GOAL]" goal master_prompt in
  replace "[NUMBER]" (str slide_count) master_prompt.

(** [run_master_planning(company, content, audience, goal, slide_count)].
    Nothing here is guarded by a [try]. *)
Definition run_master_planning {fa : FloatArith} (env : MasterEnv)
  (company content audience
  goal : string) (slide_count : N) : outcome MasterResult :=
  master_template <- load_master_template env ;;
  let master_prompt :=
    master_prompt_of master_template company content audience goal
      slide_count in
  _ <- new_master_client env ;;
  let start_time := master_clock env 0 in
  response <- generate_master_content env master_prompt ;;
  let elapsed := float_sub (master_clock env 1) start_time in
  ps <- first_candidate_parts response ;;
  let thoughts := map text (filter thought ps) in
  let output := map text (filter (fun part => negb (thought part)) ps) in
  master_output <- join (nl ++ nl) output ;;
  thoughts_text <- match thoughts with
                   | [] => Returns None
                   | _ :: _ =>
                       joined <- join (nl ++ nl) thoughts ;;
                       Returns (Some joined)
                   end ;;
  Returns {| master_output := master_output;
             master_thoughts := thoughts_text;
             master_elapsed_time := elapsed |}.

(** A part that has a text. *)
Definition has_text (p : Part) : Prop := text p <> None.

(** The look-aheads [(?=stoplit|$)] and [(?=stoplit|\Z)]. *)
Definition stop_dollar (stoplit s : string) : bool :=
  startswith stoplit s || at_dollar s.

Definition stop_Z (stoplit s : string) : bool :=
  startswith stoplit s || at_Z s.

(** ** Further example inputs *)

Module Sample.

(** Agents whose template file cannot be opened. *)
Definition no_template (i : nat) : AgentEnv :=
  {| load_slide_template := Raises (Exception "No such file");
     new_client := Returns tt;
     clock := fun _ => 0;
     generate_content := fun _ => Returns (mkResponse None) |}.

(** One result of the [except] branch of the dispatcher among two timed
    ones. *)
Definition untimed_results : list Result :=
  [ {| slide_number := 1; output := Some (Some "a"); elapsed_time := Some 2;
       success := true; error := None |};
    {| slide_number := 2; output := None; elapsed_time := None;
       success := false; error := Some "No such file" |};
    {| slide_number := 3; output := Some (Some "c"); elapsed_time := Some 1;
       success := true; error := None |} ].

(** Two results whose elapsed times are both zero. *)
Definition instant_results : list Result :=
  [ {| slide_number := 1; output := Some (Some "a"); elapsed_time := Some 0;
       success := true; error := None |};
    {| slide_number := 2; output := Some (Some "b"); elapsed_time := Some 0;
       success := true; error := None |} ].

(** A master result without text. *)
Definition empty_master : MasterResult :=
  {| master_output := ""; master_thoughts := None; master_elapsed_time := 7 |}.

(** A master result with the three headers 1, 2 and 2. *)
Definition duplicate_master : MasterResult :=
  {| master_output := Example.duplicate_markers;
     master_thoughts := None;
     master_elapsed_time := 7 |}.

(** A master planning service that answers one thought and the text with
    the three headers. *)
Definition planning : MasterEnv :=
  {| load_master_template := Returns "Plan [NUMBER] slides for [COMPANY_NAME].";
     new_master_client := Returns tt;
     master_clock := fun k => inject_Z (Z.of_nat k);
     generate_master_content := fun _ =>
       Returns (one_candidate
                  [mkPart true (Some "thinking");
                   mkPart false (Some Example.duplicate_markers)]) |}.

End Sample.

(** ** Facts about strings *)

Lemma String_inj (a b : ascii) (x y : string) :
  String a x = String b y -> a = b /\ x = y.
Proof. intros H. now inversion H. Qed.

Lemma append_assoc (a b c : string) : (a ++ b) ++ c = a ++ (b ++ c).
Proof. induction a as [|x a IH]; simpl; [reflexivity | now rewrite IH]. Qed.

Lemma append_empty_r (a : string) : a ++ "" = a.
Proof. induction a as [|x a IH]; simpl; [reflexivity | now rewrite IH]. Qed.

Lemma length_append (a b : string) :
  String.length (a ++ b) = (String.length a + String.length b)%nat.
Proof. induction a as [|x a IH]; simpl; [reflexivity | now rewrite IH]. Qed.

Lemma drop_append (a b : string) : drop (String.length a) (a ++ b) = b.
Proof. induction a as [|x a IH]; simpl; [reflexivity | exact IH]. Qed.

Lemma strip_prefix_inv (p s r : string) :
  strip_prefix p s = Some r -> s = p ++ r.
Proof.
  revert s. induction p as [|a p IH]; intros s H; simpl in *.
  - now inversion H.
  - destruct s as [|b s]; [discriminate|].
    destruct (Ascii.eqb_spec a b) as [->|]; [|discriminate].
    now rewrite (IH _ H).
Qed.

Lemma strip_prefix_append (p r : string) : strip_prefix p (p ++ r) = Some r.
Proof.
  induction p as [|a p IH]; simpl; [reflexivity|].
  now rewrite Ascii.eqb_refl.
Qed.

Lemma take_digits_inv (s d r : string) :
  take_digits s = (d, r) ->
  s = d ++ r /\ all_digits d = true /\ take_digits r = ("", r).
Proof.
  revert d r. induction s as [|c s IH]; intros d r H; simpl in H.
  - inversion H; subst. now repeat split.
  - destruct (is_digit c) eqn:Hc.
    + destruct (take_digits s) as [d' r'] eqn:Hs. inversion H; subst.
      destruct (IH _ _ eq_refl) as (-> & Hd & Hr).
      simpl. now rewrite Hc, Hd.
    + inversion H; subst. repeat split. simpl. now rewrite Hc.
Qed.

Lemma take_digits_append (d r : string) :
  all_digits d = true -> take_digits r = ("", r) ->
  take_digits (d ++ r) = (d, r).
Proof.
  induction d as [|c d IH]; simpl; intros Hd Hr; [exact Hr|].
  apply andb_true_iff in Hd as [Hc Hd]. now rewrite Hc, (IH Hd Hr).
Qed.

(** ** Facts about the brief header *)

Lemma match_header_inv (s ds rest : string) :
  match_header s = Some (ds, rest) ->
  s = header_text ds ++ rest /\ all_digits ds = true /\ ds <> "".
Proof.
  unfold match_header, header_text, header_tail. intros H.
  destruct (strip_prefix "## SLIDE " s) as [s1|] eqn:H1; [|discriminate].
  destruct (take_digits s1) as [d s2] eqn:H2.
  destruct (take_digits_inv _ _ _ H2) as (-> & Hd & _).
  destruct d as [|c d]; [discriminate|].
  destruct (strip_prefix " BRIEF:" s2) as [r|] eqn:H3; [|discriminate].
  inversion H; subst.
  rewrite (strip_prefix_inv _ _ _ H1), (strip_prefix_inv _ _ _ H3).
  repeat split; [|exact Hd|discriminate].
  cbn [append]. do 9 f_equal. now rewrite append_assoc.
Qed.

Lemma match_header_intro (ds rest : string) :
  all_digits ds = true -> ds <> "" ->
  match_header (header_text ds ++ rest) = Some (ds, rest).
Proof.
  intros Hd Hne. unfold match_header, header_text, header_tail.
  change (String "#" ("# SLIDE " ++ ds ++ " BRIEF:") ++ rest)
    with ("## SLIDE " ++ (ds ++ " BRIEF:") ++ rest).
  rewrite !append_assoc, strip_prefix_append.
  rewrite (take_digits_append ds (" BRIEF:" ++ rest) Hd eq_refl).
  destruct ds as [|c d]; [now elim Hne|].
  now rewrite strip_prefix_append.
Qed.

Lemma digit_not_boundary (c : ascii) (s : string) :
  is_digit c = true -> Spec.is_boundary (String c s) = false.
Proof.
  intros Hc.
  assert (Hne : Ascii.eqb "#" c = false)
    by (destruct (Ascii.eqb_spec "#" c) as [<-|_]; [discriminate|reflexivity]).
  unfold Spec.is_boundary, is_header, match_header, startswith.
  cbn [strip_prefix]. now rewrite Hne.
Qed.

Lemma not_stop_not_boundary (s : string) :
  slide_stop s = false -> Spec.is_boundary s = false.
Proof.
  unfold slide_stop, Spec.is_boundary. intros H.
  now apply orb_false_iff in H as [H _].
Qed.

Lemma not_boundary_not_header (s : string) :
  Spec.is_boundary s = false -> is_header s = false.
Proof.
  unfold Spec.is_boundary. intros H. now apply orb_false_iff in H as [H _].
Qed.

(** No boundary starts inside a header: the span and the scan both pass
    over it. *)
Lemma span_digits (ds r : string) :
  all_digits ds = true ->
  Spec.span_until_boundary (ds ++ r) = ds ++ Spec.span_until_boundary r.
Proof.
  induction ds as [|c d IH]; simpl; intros Hd; [reflexivity|].
  apply andb_true_iff in Hd as [Hc Hd].
  rewrite (digit_not_boundary c (d ++ r) Hc). now rewrite (IH Hd).
Qed.

Lemma briefs_digits (ds r : string) :
  all_digits ds = true -> Spec.briefs (ds ++ r) = Spec.briefs r.
Proof.
  induction ds as [|c d IH]; simpl; intros Hd; [reflexivity|].
  apply andb_true_iff in Hd as [Hc Hd].
  rewrite (not_boundary_not_header _ (digit_not_boundary c (d ++ r) Hc)).
  exact (IH Hd).
Qed.

Lemma span_header_tail (ds r : string) :
  all_digits ds = true ->
  Spec.span_until_boundary (header_tail ds ++ r)
  = header_tail ds ++ Spec.span_until_boundary r.
Proof.
  intros Hd. unfold header_tail. rewrite !append_assoc.
  change (Spec.span_until_boundary ("# SLIDE " ++ ds ++ " BRIEF:" ++ r))
    with ("# SLIDE " ++ Spec.span_until_boundary (ds ++ " BRIEF:" ++ r)).
  now rewrite (span_digits _ _ Hd).
Qed.

Lemma briefs_header_tail (ds r : string) :
  all_digits ds = true -> Spec.briefs (header_tail ds ++ r) = Spec.briefs r.
Proof.
  intros Hd. unfold header_tail. rewrite !append_assoc.
  change (Spec.briefs ("# SLIDE " ++ ds ++ " BRIEF:" ++ r))
    with (Spec.briefs (ds ++ " BRIEF:" ++ r)).
  now rewrite (briefs_digits _ _ Hd).
Qed.

(** ** The scan of [re.findall] against the reference scan *)

Lemma lazy_until_slide_total (s : string) :
  exists body rest, lazy_until slide_stop s = Some (body, rest).
Proof.
  induction s as [|c s (body & rest & IH)].
  - exists "", "". reflexivity.
  - simpl. destruct (slide_stop (String c s)).
    + now exists "", (String c s).
    + rewrite IH. now exists (String c body), rest.
Qed.

Lemma lazy_until_slide_inv (s body rest : string) :
  lazy_until slide_stop s = Some (body, rest) ->
  s = body ++ rest
  /\ slide_stop rest = true
  /\ Spec.span_until_boundary s = body ++ Spec.span_until_boundary rest
  /\ Spec.briefs s = Spec.briefs rest.
Proof.
  revert body rest. induction s as [|c s IH]; intros body rest H.
  - simpl in H. inversion H; subst. now repeat split.
  - cbn [lazy_until] in H. destruct (slide_stop (String c s)) eqn:Hstop.
    + inversion H; subst. now repeat split.
    + destruct (lazy_until slide_stop s) as [[b r]|] eqn:Hs; [|discriminate].
      inversion H; subst.
      destruct (IH _ _ eq_refl) as (-> & Hr & Hspan & Hbr).
      pose proof (not_stop_not_boundary _ Hstop) as Hb.
      repeat split; [exact Hr| |].
      * cbn [Spec.span_until_boundary]. cbn [append] in Hb |- *.
        now rewrite Hb, Hspan.
      * cbn [Spec.briefs]. cbn [append] in Hb |- *.
        now rewrite (not_boundary_not_header _ Hb).
Qed.

Lemma findall_skip_drop (k : nat) (s : string) :
  findall_skip k s = findall_skip 0 (drop k s).
Proof.
  revert s. induction k as [|k IH]; intros s; [now destruct s|].
  destruct s as [|c s]; [reflexivity|]. simpl. apply IH.
Qed.

(** What the span of the last brief looks like at the place where the lazy
    run stopped. *)
Lemma span_at_stop (rest : string) :
  slide_stop rest = true ->
  Spec.span_until_boundary rest = "" \/ Spec.span_until_boundary rest = nl.
Proof.
  unfold slide_stop. intros H.
  destruct rest as [|c r]; [now left|].
  cbn [Spec.span_until_boundary].
  destruct (Spec.is_boundary (String c r)) eqn:Hb; [now left|].
  unfold Spec.is_boundary in Hb. rewrite Hb in H. simpl in H.
  destruct r as [|c' r]; [|discriminate].
  apply Ascii.eqb_eq in H. subst c. right. reflexivity.
Qed.

Lemma rstrip_append_nl (s : string) : rstrip (s ++ nl) = rstrip s.
Proof.
  induction s as [|c s IH]; [reflexivity|].
  cbn [append rstrip]. now rewrite IH.
Qed.

Lemma strip_header_nl (g : string) :
  strip (String "#" g ++ nl) = strip (String "#" g).
Proof.
  unfold strip. cbn [append lstrip].
  change (is_space "#") with false. cbn iota.
  exact (rstrip_append_nl (String "#" g)).
Qed.

Lemma search_header_here (s ds rest : string) :
  match_header s = Some (ds, rest) -> search_header s = Some ds.
Proof. intros H. destruct s; cbn [search_header]; now rewrite H. Qed.

Lemma brief_of_header_match (ds body rest : string) :
  all_digits ds = true -> ds <> "" -> slide_stop rest = true ->
  Spec.span_until_boundary (body ++ rest)
  = body ++ Spec.span_until_boundary rest ->
  brief_of_match (header_text ds ++ body)
  = [brief_of_span
       (decimal ds,
        String "#" (Spec.span_until_boundary (header_tail ds ++ body ++ rest)))].
Proof.
  intros Hd Hne Hstop Hspan.
  unfold brief_of_match, brief_of_span. cbn [fst snd].
  rewrite (search_header_here _ _ _ (match_header_intro ds body Hd Hne)).
  do 2 f_equal.
  rewrite (span_header_tail ds _ Hd), Hspan.
  unfold header_text. cbn [append].
  destruct (span_at_stop rest Hstop) as [-> | ->].
  - now rewrite append_empty_r.
  - rewrite <- (append_assoc (header_tail ds) body nl).
    symmetry. exact (strip_header_nl (header_tail ds ++ body)).
Qed.

Lemma findall_reference (n : nat) :
  forall s, (String.length s <= n)%nat ->
  flat_map brief_of_match (findall_skip 0 s)
  = map brief_of_span (Spec.briefs s).
Proof.
  induction n as [|n IH]; intros s Hlen.
  - destruct s; [reflexivity | simpl in Hlen; lia].
  - destruct s as [|c s']; [reflexivity|].
    cbn [findall_skip Spec.briefs]. unfold match_slide_pattern, is_header.
    unfold Spec.declared_number.
    destruct (match_header (String c s')) as [[ds after]|] eqn:Hh.
    2:{ apply IH. simpl in Hlen. lia. }
    destruct (match_header_inv _ _ _ Hh) as (Hs & Hd & Hne).
    destruct (lazy_until_slide_total after) as (body & rest & Hl).
    rewrite Hl.
    destruct (lazy_until_slide_inv _ _ _ Hl) as (Hafter & Hstop & Hspan & Hbr).
    clear Hh Hl. subst after.
    change (String c s' = String "#" (header_tail ds ++ body ++ rest)) in Hs.
    apply String_inj in Hs as [Hc Hs'].
    change (flat_map brief_of_match (?g :: ?l))
      with (brief_of_match g ++ flat_map brief_of_match l)%list.
    change (map brief_of_span (?p :: ?l))
      with (brief_of_span p :: map brief_of_span l).
    rewrite Hs', (brief_of_header_match ds body rest Hd Hne Hstop Hspan).
    cbn [app]. f_equal; [now rewrite Hc|].
    rewrite findall_skip_drop.
    assert (Hk : (String.length (header_text ds ++ body) - 1)%nat
                 = String.length (header_tail ds ++ body)).
    { unfold header_text. cbn [append String.length]. lia. }
    rewrite Hk, <- (append_assoc (header_tail ds) body rest), drop_append.
    rewrite append_assoc, (briefs_header_tail ds _ Hd), Hbr.
    apply IH. rewrite Hs' in Hlen. cbn [String.length] in Hlen.
    rewrite !length_append in Hlen. lia.
Qed.

Lemma header_digits_digits (ds r : string) :
  all_digits ds = true -> header_digits (ds ++ r) = header_digits r.
Proof.
  induction ds as [|c d IH]; simpl; intros Hd; [reflexivity|].
  apply andb_true_iff in Hd as [Hc Hd].
  pose proof (not_boundary_not_header _ (digit_not_boundary c (d ++ r) Hc))
    as Hh.
  unfold is_header in Hh.
  destruct (match_header (String c (d ++ r))) as [[]|]; [discriminate|].
  exact (IH Hd).
Qed.

Lemma header_digits_header_tail (ds r : string) :
  all_digits ds = true ->
  header_digits (header_tail ds ++ r) = header_digits r.
Proof.
  intros Hd. unfold header_tail. rewrite !append_assoc.
  change (header_digits ("# SLIDE " ++ ds ++ " BRIEF:" ++ r))
    with (header_digits (ds ++ " BRIEF:" ++ r)).
  now rewrite (header_digits_digits _ _ Hd).
Qed.

Lemma lazy_until_slide_digits (s body rest : string) :
  lazy_until slide_stop s = Some (body, rest) ->
  header_digits s = header_digits rest.
Proof.
  revert body rest. induction s as [|c s IH]; intros body rest H.
  - simpl in H. now inversion H.
  - cbn [lazy_until] in H. destruct (slide_stop (String c s)) eqn:Hstop.
    + now inversion H.
    + destruct (lazy_until slide_stop s) as [[b r]|] eqn:Hs; [|discriminate].
      inversion H; subst.
      pose proof (not_boundary_not_header _ (not_stop_not_boundary _ Hstop))
        as Hh.
      unfold is_header in Hh. cbn [header_digits].
      destruct (match_header (String c s)) as [[]|]; [discriminate|].
      exact (IH _ _ eq_refl).
Qed.

(** The digits that the loop reads are those of the headers. *)
Lemma findall_digits (n : nat) :
  forall s, (String.length s <= n)%nat ->
  flat_map digits_of_match (findall_skip 0 s) = header_digits s.
Proof.
  induction n as [|n IH]; intros s Hlen.
  - destruct s; [reflexivity | simpl in Hlen; lia].
  - destruct s as [|c s']; [reflexivity|].
    cbn [findall_skip header_digits]. unfold match_slide_pattern.
    destruct (match_header (String c s')) as [[ds after]|] eqn:Hh.
    2:{ apply IH. simpl in Hlen. lia. }
    destruct (match_header_inv _ _ _ Hh) as (Hs & Hd & Hne).
    destruct (lazy_until_slide_total after) as (body & rest & Hl).
    rewrite Hl.
    destruct (lazy_until_slide_inv _ _ _ Hl) as (Hafter & _).
    pose proof (lazy_until_slide_digits _ _ _ Hl) as Hdg.
    clear Hh Hl. subst after.
    change (String c s' = String "#" (header_tail ds ++ body ++ rest)) in Hs.
    apply String_inj in Hs as [Hc Hs'].
    change (flat_map digits_of_match (?g :: ?l))
      with (digits_of_match g ++ flat_map digits_of_match l)%list.
    unfold digits_of_match at 1.
    rewrite (search_header_here _ _ _ (match_header_intro ds body Hd Hne)).
    cbn [app]. f_equal.
    rewrite findall_skip_drop.
    assert (Hk : (String.length (header_text ds ++ body) - 1)%nat
                 = String.length (header_tail ds ++ body)).
    { unfold header_text. cbn [append String.length]. lia. }
    rewrite Hs', Hk, <- (append_assoc (header_tail ds) body rest), drop_append.
    rewrite append_assoc, (header_digits_header_tail ds _ Hd), Hdg.
    apply IH. rewrite Hs' in Hlen. cbn [String.length] in Hlen.
    rewrite !length_append in Hlen. lia.
Qed.

Lemma fold_left_raises (ms : list string) (e : exception) :
  fold_left add_brief ms (Raises e) = Raises e.
Proof. induction ms as [|m ms IH]; [reflexivity | exact IH]. Qed.

Lemma fold_left_briefs (ms : list string) (acc : list Brief) :
  fold_left add_brief ms (Returns acc)
  = match over_limit (flat_map digits_of_match ms) with
    | None => Returns (acc ++ flat_map brief_of_match ms)%list
    | Some ds => Raises (digit_limit_error ds)
    end.
Proof.
  revert acc. induction ms as [|m ms IH]; intros acc; cbn [fold_left flat_map].
  - cbn. now rewrite app_nil_r.
  - unfold add_brief at 2, digits_of_match at 1, brief_of_match at 1.
    cbn [bind]. destruct (search_header m) as [ds|]; cbn [app].
    + unfold over_limit. cbn [find]. unfold int.
      destruct (within_digit_limit ds); cbn [negb bind].
      * rewrite IH. unfold over_limit. now rewrite <- app_assoc.
      * apply fold_left_raises.
    + apply IH.
Qed.

(** The extractor is the reference scan with every span stripped, unless
    a header has more digits than [int] converts. *)
Lemma parse_slide_briefs_reference (s : string) :
  parse_slide_briefs s
  = match over_limit_header s with
    | None => Returns (map brief_of_span (Spec.briefs s))
    | Some ds => Raises (digit_limit_error ds)
    end.
Proof.
  unfold parse_slide_briefs, findall_slide_pattern, over_limit_header.
  rewrite fold_left_briefs. cbn [app].
  rewrite (findall_digits (String.length s) s (le_n _)).
  now rewrite (findall_reference (String.length s) s (le_n _)).
Qed.

Lemma parse_slide_briefs_returns (s : string) (bs : list Brief) :
  parse_slide_briefs s = Returns bs ->
  over_limit_header s = None /\ bs = map brief_of_span (Spec.briefs s).
Proof.
  rewrite parse_slide_briefs_reference.
  destruct (over_limit_header s); [discriminate|].
  intros H. now inversion H.
Qed.

Lemma header_digits_none (s : string) :
  Spec.count_markers s = 0%nat -> header_digits s = [].
Proof.
  induction s as [|c s IH]; [reflexivity|].
  cbn [Spec.count_markers header_digits]. unfold is_header.
  destruct (match_header (String c s)) as [[]|]; [discriminate|].
  exact IH.
Qed.

(** ** Facts about the sort *)

Lemma insert_permutation (r : Result) (l : list Result) :
  Permutation (insert_by_slide_number r l) (r :: l).
Proof.
  induction l as [|h t IH]; cbn [insert_by_slide_number]; [reflexivity|].
  destruct (slide_number r <=? slide_number h)%N; [reflexivity|].
  rewrite IH. apply perm_swap.
Qed.

Lemma sort_permutation (l : list Result) :
  Permutation (sort_by_slide_number l) l.
Proof.
  induction l as [|r l IH]; [reflexivity|].
  unfold sort_by_slide_number in *. cbn [fold_right].
  rewrite insert_permutation. now constructor.
Qed.

Lemma insert_sorted (r : Result) (l : list Result) :
  StronglySorted Spec.by_slide_number l ->
  StronglySorted Spec.by_slide_number (insert_by_slide_number r l).
Proof.
  induction 1 as [|h t Ht IH Hh]; cbn [insert_by_slide_number].
  - repeat constructor.
  - destruct (slide_number r <=? slide_number h)%N eqn:Hle.
    + apply N.leb_le in Hle. constructor; [now constructor|].
      constructor; [exact Hle|].
      eapply Forall_impl; [|exact Hh].
      intros a Ha. unfold Spec.by_slide_number in *. lia.
    + apply N.leb_gt in Hle. constructor; [exact IH|].
      rewrite (Forall_forall (Spec.by_slide_number h)).
      intros a Ha.
      apply (Permutation_in _ (insert_permutation r t)) in Ha.
      destruct Ha as [<- | Ha].
      * unfold Spec.by_slide_number. lia.
      * now apply (proj1 (Forall_forall _ _) Hh).
Qed.

Lemma sort_sorted (l : list Result) :
  StronglySorted Spec.by_slide_number (sort_by_slide_number l).
Proof.
  induction l as [|r l IH]; [constructor|].
  unfold sort_by_slide_number in *. cbn [fold_right].
  now apply insert_sorted.
Qed.

(** ** Facts about the dispatcher *)

Lemma fold_left_collect (fs : list Future) (acc : list Result) :
  fold_left collect fs acc = (acc ++ map result_of_future fs)%list.
Proof.
  revert acc. induction fs as [|f fs IH]; intros acc; cbn [fold_left map].
  - now rewrite app_nil_r.
  - rewrite IH. unfold collect, result_of_future at 2.
    destruct (future_result f); now rewrite <- app_assoc.
Qed.

Lemma submit_all_results {fa : FloatArith} (agent_env : nat -> AgentEnv) (bd : string)
  (briefs : list Brief) :
  forall i, map result_of_future (submit_all agent_env i briefs bd)
            = unit_results agent_env i briefs bd.
Proof.
  induction briefs as [|b rest IH]; intros i; [reflexivity|].
  cbn [submit_all map unit_results]. now rewrite IH.
Qed.

Lemma unit_results_length {fa : FloatArith} (agent_env : nat -> AgentEnv) (bd : string)
  (briefs : list Brief) :
  forall i, List.length (unit_results agent_env i briefs bd)
            = List.length briefs.
Proof.
  induction briefs as [|b rest IH]; intros i; [reflexivity|].
  cbn [unit_results List.length]. now rewrite IH.
Qed.

Lemma unit_results_nth {fa : FloatArith} (agent_env : nat -> AgentEnv) (bd : string)
  (briefs : list Brief) :
  forall i k b, nth_error briefs k = Some b ->
  In (unit_result (agent_env (i + k)%nat) b bd)
     (unit_results agent_env i briefs bd).
Proof.
  induction briefs as [|b0 rest IH]; intros i k b Hk.
  - now destruct k.
  - destruct k as [|k]; cbn [nth_error] in Hk.
    + inversion Hk; subst. rewrite Nat.add_0_r. now left.
    + right. replace (i + S k)%nat with (S i + k)%nat by lia. now apply IH.
Qed.

Lemma run_slide_agent_shape {fa : FloatArith} (env : AgentEnv) (n : N) (b bd : string) (r : Result) :
  run_slide_agent env n b bd = Returns r ->
  slide_number r = n /\ well_formed r
  /\ exists k, elapsed_time r = Some (float_sub (clock env (S k)) (clock env 0)).
Proof.
  unfold run_slide_agent, bind, well_formed.
  destruct (load_slide_template env) as [tmpl|]; [|discriminate].
  destruct (new_client env) as [[]|]; [|discriminate].
  destruct (generate_content env _) as [response|e].
  - destruct (slide_output_of response) as [out|e]; intros H; inversion H;
      subst; cbn; repeat split; eauto.
  - intros H; inversion H; subst; cbn; repeat split; eauto.
Qed.

Lemma unit_result_shape {fa : FloatArith} (env : AgentEnv) (b : Brief) (bd : string) :
  slide_number (unit_result env b bd) = brief_slide_number b
  /\ well_formed (unit_result env b bd).
Proof.
  unfold unit_result.
  destruct (run_slide_agent env _ _ _) as [r|e] eqn:Hr.
  - destruct (run_slide_agent_shape _ _ _ _ _ Hr) as (Hn & Hwf & _).
    now split.
  - split; [reflexivity|]. unfold well_formed. cbn. eauto.
Qed.

Lemma unit_results_shape {fa : FloatArith} (agent_env : nat -> AgentEnv) (bd : string)
  (briefs : list Brief) :
  forall i, map slide_number (unit_results agent_env i briefs bd)
            = map brief_slide_number briefs
            /\ Forall well_formed (unit_results agent_env i briefs bd).
Proof.
  induction briefs as [|b rest IH]; intros i; [now split|].
  cbn [unit_results map]. destruct (IH (S i)) as [Hn Hwf].
  destruct (unit_result_shape (agent_env i) b bd) as [Hb Hw].
  split; [now rewrite Hb, Hn | now constructor].
Qed.

(** ** Facts about the assembler *)

Lemma add_result_block (doc : string) (r : Result) :
  well_formed r -> add_result doc r = Returns (doc ++ Spec.block_of r).
Proof.
  unfold well_formed, add_result, Spec.block_of, Spec.output_block,
    Spec.error_block.
  destruct (success r).
  - intros [out ->]. reflexivity.
  - intros [msg ->]. f_equal. now rewrite !append_assoc.
Qed.

Lemma error_block_mentions (n : N) (msg : string) :
  Spec.occurs_in (str n) (Spec.error_block n msg)
  /\ Spec.occurs_in msg (Spec.error_block n msg).
Proof.
  unfold Spec.occurs_in, Spec.error_block. split.
  - exists (nl ++ "### SLIDE "). eexists. now rewrite !append_assoc.
  - exists (nl ++ "### SLIDE " ++ str n ++ ": ERROR" ++ nl ++ nl ++ "**Error:** ").
    eexists. now rewrite !append_assoc.
Qed.

Lemma add_results_blocks (rs : list Result) :
  Forall well_formed rs ->
  forall doc,
  add_results doc rs = Returns (doc ++ concat_all (map Spec.block_of rs)).
Proof.
  induction 1 as [|r rs Hr Hrs IH]; intros doc; cbn [add_results map].
  - unfold concat_all. cbn. now rewrite append_empty_r.
  - rewrite (add_result_block doc r Hr). cbn [bind]. rewrite IH.
    unfold concat_all. cbn [fold_right]. now rewrite append_assoc.
Qed.

Lemma assemble_blocks (master : string) (rs : list Result) :
  Forall well_formed rs ->
  assemble_final_document master rs
  = Returns (fixed_sections master ++ concat_all (map Spec.block_of rs)
             ++ production_notes).
Proof.
  intros Hwf. unfold assemble_final_document.
  rewrite (add_results_blocks rs Hwf). cbn [bind].
  now rewrite append_assoc.
Qed.

(** ** Facts about the statistics *)

Lemma elapsed_times_present (rs : list Result) (ts : list Q) :
  map elapsed_time rs = map Some ts -> elapsed_times rs = Returns ts.
Proof.
  revert ts. induction rs as [|r rs IH]; intros [|t ts] H; try discriminate.
  - reflexivity.
  - cbn [map] in H. inversion H as [[Hr Hrs]].
    cbn [elapsed_times]. rewrite Hr, (IH _ Hrs). reflexivity.
Qed.

Lemma fold_left_max (rest : list Q) :
  forall m0,
  let m := fold_left (fun m x => if Qle_bool x m then m else x) rest m0 in
  (m = m0 \/ In m rest) /\ m0 <= m /\ (forall t, In t rest -> t <= m).
Proof.
  induction rest as [|x rest IH]; intros m0; cbn [fold_left].
  - repeat split; [now left | apply Qle_refl | intros t []].
  - destruct (Qle_bool x m0) eqn:Hx.
    + apply Qle_bool_iff in Hx.
      destruct (IH m0) as ([Hm | Hm] & Hle & Hall); cbn zeta in *.
      * repeat split; [now left | exact Hle |].
        intros t [<- | Ht]; [now apply Qle_trans with m0 | now apply Hall].
      * repeat split; [right; now right | exact Hle |].
        intros t [<- | Ht]; [now apply Qle_trans with m0 | now apply Hall].
    + assert (Hlt : m0 <= x).
      { apply Qlt_le_weak, Qnot_le_lt. intros Hle.
        apply Qle_bool_iff in Hle. congruence. }
      destruct (IH x) as ([Hm | Hm] & Hle & Hall); cbn zeta in *.
      * repeat split; [right; now left | now apply Qle_trans with x |].
        intros t [<- | Ht]; [exact Hle | now apply Hall].
      * repeat split; [right; now right | now apply Qle_trans with x |].
        intros t [<- | Ht]; [exact Hle | now apply Hall].
Qed.

Lemma py_max_is_maximum (ts : list Q) (m : Q) :
  py_max ts = Returns m -> In m ts /\ (forall t, In t ts -> t <= m).
Proof.
  destruct ts as [|t0 rest]; [discriminate|].
  unfold py_max. intros H. inversion H as [Hm]. clear H.
  destruct (fold_left_max rest t0) as (Hin & Hle & Hall). cbn zeta in *.
  split.
  - destruct Hin as [-> | Hin]; [now left | now right].
  - intros t [<- | Ht]; [exact Hle | now apply Hall].
Qed.

Lemma py_div_positive {fa : FloatArith} (a b : Q) :
  0 < b -> py_div a b = Returns (float_div a b).
Proof.
  intros Hb. unfold py_div.
  destruct (Qeq_bool b 0) eqn:Hz; [|reflexivity].
  apply Qeq_bool_iff in Hz. rewrite Hz in Hb. now apply Qlt_irrefl in Hb.
Qed.

Lemma briefs_count (s : string) :
  List.length (Spec.briefs s) = Spec.count_markers s.
Proof.
  induction s as [|c s IH]; [reflexivity|].
  cbn [Spec.briefs Spec.count_markers].
  destruct (is_header (String c s)); cbn [List.length]; now rewrite IH.
Qed.

Lemma briefs_none (s : string) :
  Spec.count_markers s = 0%nat -> Spec.briefs s = [].
Proof.
  intros H. rewrite <- briefs_count in H. now destruct (Spec.briefs s).
Qed.

(** ** The embedding on small inputs *)

Section SmallInputs.

Local Existing Instance exact_floats.

Example parse_two_briefs :
  parse_slide_briefs Example.two_briefs
  = Returns
      [ {| brief_slide_number := 1; brief := "## SLIDE 1 BRIEF: a" |};
        {| brief_slide_number := 2; brief := "## SLIDE 2 BRIEF: b" |} ].
Proof. reflexivity. Qed.

Example parse_stops_at_next_steps :
  parse_slide_briefs "intro ## SLIDE 07 BRIEF: x ## NEXT STEPS y ## SLIDE 3 BRIEF:z"
  = Returns
      [ {| brief_slide_number := 7; brief := "## SLIDE 07 BRIEF: x" |};
        {| brief_slide_number := 3; brief := "## SLIDE 3 BRIEF:z" |} ].
Proof. reflexivity. Qed.

Example parse_needs_digits :
  parse_slide_briefs "## SLIDE  BRIEF: x ## SLIDE one BRIEF: y" = Returns [].
Proof. reflexivity. Qed.

Example parse_raises_over_the_digit_limit :
  String.length Example.long_digits = 4301%nat
  /\ int Example.long_digits
     = Raises (Exception "Exceeds the limit (4300 digits) for integer string conversion: value has 4301 digits; use sys.set_int_max_str_digits() to increase the limit")
  /\ parse_slide_briefs Example.long_header
     = Raises (digit_limit_error Example.long_digits).
Proof. vm_compute. repeat split. Qed.

Example findall_leaves_last_line_feed :
  findall_slide_pattern Example.duplicate_markers
  = [ "## SLIDE 1 BRIEF: a" ++ nl; "## SLIDE 2 BRIEF: b" ++ nl;
      "## SLIDE 2 BRIEF: c" ].
Proof. reflexivity. Qed.

Example strip_both_ends : strip (nl ++ "  a b " ++ nl) = "a b".
Proof. reflexivity. Qed.

Example sort_is_stable :
  map error
    (sort_by_slide_number
       [ mkResult 2 None None false (Some "first");
         mkResult 1 None None false (Some "one");
         mkResult 2 None None false (Some "second") ])
  = [Some "one"; Some "first"; Some "second"].
Proof. reflexivity. Qed.

Example failed_unit_is_rendered :
  Spec.block_of (mkResult 3 (Some None) (Some 1) false (Some "boom"))
  = nl ++ "### SLIDE 3: ERROR" ++ nl ++ nl ++ "**Error:** boom" ++ nl ++ nl
    ++ "---" ++ nl ++ nl.
Proof. reflexivity. Qed.

Example template_error_reaches_the_dispatcher :
  run_parallel_slide_agents
    (fun _ => {| load_slide_template := Raises (Exception "No such file");
                 new_client := Returns tt;
                 clock := fun _ => 0;
                 generate_content := fun _ => Returns (mkResponse None) |})
    (fun fs => fs) [ {| brief_slide_number := 4; brief := "b" |} ] "" 5
  = [ mkResult 4 None None false (Some "No such file") ].
Proof. reflexivity. Qed.

End SmallInputs.

(** ** The claims *)

Section Claims.

Context {fa : FloatArith}.

Variable agent_env : nat -> AgentEnv.
Variable as_completed : list Future -> list Future.

(** [as_completed] yields every future it is given exactly once, in some
    order. *)
Hypothesis as_completed_permutation :
  forall fs, Permutation (as_completed fs) fs.

Lemma dispatcher_permutation (briefs : list Brief) (bd : string) (mw : nat) :
  Permutation (run_parallel_slide_agents agent_env as_completed briefs bd mw)
              (unit_results agent_env 0 briefs bd).
Proof.
  unfold run_parallel_slide_agents.
  rewrite sort_permutation, fold_left_collect. cbn [app].
  rewrite <- submit_all_results.
  apply Permutation_map, as_completed_permutation.
Qed.

Lemma dispatcher_well_formed (briefs : list Brief) (bd : string) (mw : nat) :
  Forall well_formed
    (run_parallel_slide_agents agent_env as_completed briefs bd mw).
Proof.
  apply (Permutation_Forall (Permutation_sym (dispatcher_permutation briefs bd mw))).
  apply unit_results_shape.
Qed.

(** C1. The dispatcher returns exactly one result per submitted brief: the
    returned list is a rearrangement of the results of the units, one for
    each brief, so it is as long as the list of briefs. *)
Theorem one_result_per_brief (briefs : list Brief) (bd : string) (mw : nat) :
  Permutation (run_parallel_slide_agents agent_env as_completed briefs bd mw)
              (unit_results agent_env 0 briefs bd)
  /\ List.length (run_parallel_slide_agents agent_env as_completed briefs bd mw)
     = List.length briefs.
Proof.
  split; [apply dispatcher_permutation|].
  rewrite (Permutation_length (dispatcher_permutation briefs bd mw)).
  apply unit_results_length.
Qed.

(** C2. Whatever the order of completion, the list returned by the
    dispatcher is sorted by ascending slide number. *)
Theorem results_sorted_by_slide_number (briefs : list Brief) (bd : string)
  (mw : nat) :
  StronglySorted Spec.by_slide_number
    (run_parallel_slide_agents agent_env as_completed briefs bd mw).
Proof. unfold run_parallel_slide_agents. apply sort_sorted. Qed.

(** C3. When the generation call of unit [i] raises [e], [run_slide_agent]
    returns a failed result whose error field is the message of [e]; that
    result is an element of the list the dispatcher returns, and so is the
    result of every unit of the batch. *)
Theorem generation_error_is_captured (briefs : list Brief) (bd : string)
  (mw i : nat) (b : Brief) (tmpl : string) (e : exception) :
  nth_error briefs i = Some b ->
  load_slide_template (agent_env i) = Returns tmpl ->
  new_client (agent_env i) = Returns tt ->
  generation (agent_env i)
    (slide_prompt_of (brief_slide_number b) bd (brief b) tmpl) = Raises e ->
  exists r,
    run_slide_agent (agent_env i) (brief_slide_number b) (brief b) bd
    = Returns r
    /\ slide_number r = brief_slide_number b
    /\ success r = false
    /\ output r = Some None
    /\ error r = Some (message e)
    /\ In r (run_parallel_slide_agents agent_env as_completed briefs bd mw)
    /\ forall j b', nth_error briefs j = Some b' ->
         In (unit_result (agent_env j) b' bd)
            (run_parallel_slide_agents agent_env as_completed briefs bd mw).
Proof.
  intros Hb Htmpl Hclient Hgen.
  assert (Hall : forall j b', nth_error briefs j = Some b' ->
            In (unit_result (agent_env j) b' bd)
               (run_parallel_slide_agents agent_env as_completed briefs bd mw)).
  { intros j b' Hj.
    apply (Permutation_in _ (Permutation_sym (dispatcher_permutation briefs bd mw))).
    exact (unit_results_nth agent_env bd briefs 0 j b' Hj). }
  specialize (Hall i b Hb) as Hi. unfold unit_result in Hi.
  unfold generation, bind in Hgen.
  unfold run_slide_agent, bind in Hi |- *. rewrite Htmpl, Hclient in Hi |- *.
  destruct (generate_content (agent_env i) _) as [response|e'].
  - rewrite Hgen in Hi |- *. eexists. repeat split; try reflexivity; assumption.
  - inversion Hgen; subst e'. eexists.
    repeat split; try reflexivity; assumption.
Qed.

(** C4. When no brief header has more than 4300 digits, the extractor
    returns one brief per occurrence of the brief header, in scan order;
    each brief carries the number declared by its own header, and its text
    is the span from the header up to, and not including, the next brief
    header, the next-steps marker or the end of the document, with
    surrounding whitespace stripped. When some header has more than 4300
    digits, [int] raises [ValueError] at the first such header and the
    exception leaves the extractor. *)
Theorem briefs_are_stripped_spans (s : string) :
  parse_slide_briefs s
  = match over_limit_header s with
    | None =>
        Returns
          (map (fun p => {| brief_slide_number := fst p;
                            brief := strip (snd p) |})
             (Spec.briefs s))
    | Some ds => Raises (digit_limit_error ds)
    end
  /\ (forall briefs, parse_slide_briefs s = Returns briefs ->
        List.length briefs = Spec.count_markers s)
  /\ (over_limit_header s = None
      <-> forall ds, In ds (header_digits s) ->
            (N.of_nat (String.length ds) <= 4300)%N)
  /\ (forall ds, over_limit_header s = Some ds ->
        In ds (header_digits s)
        /\ (4300 < N.of_nat (String.length ds))%N).
Proof.
  split; [exact (parse_slide_briefs_reference s)|]. split.
  { intros briefs H. apply parse_slide_briefs_returns in H as [_ ->].
    rewrite length_map. apply briefs_count. }
  unfold over_limit_header, over_limit. split; [split|].
  - intros Hnone ds Hin.
    pose proof (find_none _ _ Hnone ds Hin) as H.
    apply negb_false_iff in H. now apply N.leb_le in H.
  - intros Hall.
    destruct (find _ (header_digits s)) as [ds|] eqn:Hf; [|reflexivity].
    apply find_some in Hf as [Hin Hds]. apply negb_true_iff in Hds.
    apply N.leb_gt in Hds. specialize (Hall ds Hin).
    unfold int_max_str_digits in Hds. lia.
  - intros ds Hf. apply find_some in Hf as [Hin Hds].
    split; [exact Hin|]. apply negb_true_iff in Hds.
    now apply N.leb_gt in Hds.
Qed.

(** C5. When the master output has no brief header, the extractor returns
    the empty list and [main] returns early: its only event is the master
    planning call, so no slide agent is called and neither the dispatcher
    nor the assembler runs. *)
Theorem no_markers_aborts (format_2f : Q -> string) (m : MasterResult) :
  Spec.count_markers (master_output m) = 0%nat ->
  let run := main format_2f (Returns m) agent_env as_completed in
  parse_slide_briefs (master_output m) = Returns []
  /\ snd run = Returns None
  /\ phase2_call_count (fst run) = 0%nat
  /\ (forall units, ~ In (DispatcherRun units) (fst run))
  /\ ~ In AssemblerRun (fst run).
Proof.
  intros Hzero.
  assert (Hnil : parse_slide_briefs (master_output m) = Returns []).
  { rewrite parse_slide_briefs_reference. unfold over_limit_header.
    now rewrite (header_digits_none _ Hzero), (briefs_none _ Hzero). }
  cbn zeta. unfold main. rewrite Hnil. cbn.
  repeat split; try reflexivity.
  - intros units [H | []]. discriminate H.
  - intros [H | []]. discriminate H.
Qed.

(** C6. The document assembled from the results of the dispatcher is the
    fixed sections, then one block per result in ascending order of slide
    number, then the production notes. The block of a failed unit is an
    error block with its slide number and its error message; the block of
    a successful unit is its output. *)
Theorem document_has_one_block_per_result (master : string)
  (briefs : list Brief) (bd : string) (mw : nat) :
  let rs := run_parallel_slide_agents agent_env as_completed briefs bd mw in
  assemble_final_document master rs
  = Returns (fixed_sections master ++ concat_all (map Spec.block_of rs)
             ++ production_notes)
  /\ StronglySorted Spec.by_slide_number rs
  /\ List.length (map Spec.block_of rs) = List.length briefs
  /\ (forall r, In r rs -> success r = false ->
       exists msg, error r = Some msg
                   /\ Spec.block_of r = Spec.error_block (slide_number r) msg
                   /\ Spec.occurs_in (str (slide_number r)) (Spec.block_of r)
                   /\ Spec.occurs_in msg (Spec.block_of r))
  /\ (forall r, In r rs -> success r = true ->
       exists out, output r = Some (Some out)
                   /\ Spec.block_of r = Spec.output_block out).
Proof.
  cbn zeta. pose proof (dispatcher_well_formed briefs bd mw) as Hwf.
  split; [exact (assemble_blocks master _ Hwf)|].
  split; [unfold run_parallel_slide_agents; apply sort_sorted|].
  split.
  { rewrite length_map, (Permutation_length (dispatcher_permutation briefs bd mw)).
    apply unit_results_length. }
  rewrite Forall_forall in Hwf.
  split; intros r Hr Hs; specialize (Hwf r Hr); unfold well_formed in Hwf;
    rewrite Hs in Hwf; destruct Hwf as [x Hx]; exists x; split; trivial;
    unfold Spec.block_of; rewrite Hs, Hx; [|reflexivity].
  split; [reflexivity | apply error_block_mentions].
Qed.

(** C7. Duplicate headers are kept. When no brief header has more than
    4300 digits, the extractor returns one brief per header, with the
    declared numbers in scan order; the dispatcher returns one result per
    brief, and the assembler renders every result, the duplicates included,
    in ascending order of slide number, and ends the document with the
    production notes. A number that no header declares has no result,
    hence no block. *)
Theorem duplicates_are_kept (s bd : string) (mw : nat) :
  over_limit_header s = None ->
  exists briefs,
    parse_slide_briefs s = Returns briefs
    /\ List.length briefs = Spec.count_markers s
    /\ map brief_slide_number briefs = map fst (Spec.briefs s)
    /\ let rs :=
         run_parallel_slide_agents agent_env as_completed briefs bd mw in
       Permutation (map slide_number rs) (map brief_slide_number briefs)
       /\ StronglySorted Spec.by_slide_number rs
       /\ assemble_final_document s rs
          = Returns (fixed_sections s ++ concat_all (map Spec.block_of rs)
                     ++ production_notes).
Proof.
  intros Hlimit. eexists.
  split; [rewrite parse_slide_briefs_reference, Hlimit; reflexivity|].
  split; [rewrite length_map; apply briefs_count|].
  split; [rewrite map_map; reflexivity|].
  cbn zeta. split.
  { rewrite (Permutation_map slide_number
               (dispatcher_permutation _ bd mw)).
    now rewrite (proj1 (unit_results_shape agent_env bd _ 0)). }
  split; [unfold run_parallel_slide_agents; apply sort_sorted|].
  exact (assemble_blocks s _ (dispatcher_well_formed _ bd mw)).
Qed.


(** C10. Every dict returned by [run_slide_agent] carries the slide number
    it was called with and a boolean [success]. When the service call
    returns and its answer is extracted, [success] is true, [output] is
    the extracted string, there is no [error], and [elapsed_time] is the
    second reading of the clock minus the first. When the service call
    raises, [success] is false, [output] is [None], [error] is the message
    and [elapsed_time] is again the second reading minus the first. When
    the service call returns and the extraction of its answer raises,
    [success] is false, [output] is [None], [error] is the message and
    [elapsed_time] is the third reading minus the first. The elapsed time
    is not negative when no later reading is below the first. [success] is
    true exactly when [output] is not [None]. *)
Theorem run_slide_agent_result (env : AgentEnv) (n : N) (b bd : string)
  (r : Result) :
  run_slide_agent env n b bd = Returns r ->
  slide_number r = n
  /\ (forall tmpl response out,
        load_slide_template env = Returns tmpl ->
        generate_content env (slide_prompt_of n bd b tmpl) = Returns response ->
        slide_output_of response = Returns out ->
        success r = true /\ output r = Some (Some out) /\ error r = None
        /\ elapsed_time r = Some (float_sub (clock env 1) (clock env 0)))
  /\ (forall tmpl e,
        load_slide_template env = Returns tmpl ->
        generate_content env (slide_prompt_of n bd b tmpl) = Raises e ->
        success r = false /\ output r = Some None
        /\ error r = Some (message e)
        /\ elapsed_time r = Some (float_sub (clock env 1) (clock env 0)))
  /\ (forall tmpl response e,
        load_slide_template env = Returns tmpl ->
        generate_content env (slide_prompt_of n bd b tmpl) = Returns response ->
        slide_output_of response = Raises e ->
        success r = false /\ output r = Some None
        /\ error r = Some (message e)
        /\ elapsed_time r = Some (float_sub (clock env 2) (clock env 0)))
  /\ (difference_keeps_order ->
      (forall k, clock env 0 <= clock env k) ->
      exists t, elapsed_time r = Some t /\ 0 <= t)
  /\ (success r = true <-> output r <> Some None).
Proof.
  intros Hr.
  destruct (run_slide_agent_shape _ _ _ _ _ Hr) as (Hn & _ & k & Hk).
  split; [exact Hn|].
  unfold run_slide_agent, bind in Hr.
  destruct (load_slide_template env) as [tmpl|]; [|discriminate].
  destruct (new_client env) as [[]|]; [|discriminate].
  split; [|split; [|split; [|split]]].
  - intros tmpl' response out Ht Hg Ho. inversion Ht; subst tmpl'.
    rewrite Hg, Ho in Hr. inversion Hr. now repeat split.
  - intros tmpl' e Ht Hg. inversion Ht; subst tmpl'.
    rewrite Hg in Hr. inversion Hr. now repeat split.
  - intros tmpl' response e Ht Hg Ho. inversion Ht; subst tmpl'.
    rewrite Hg, Ho in Hr. inversion Hr. now repeat split.
  - intros Hsub Hmono. eexists. split; [exact Hk|]. apply Hsub, Hmono.
  - destruct (generate_content env _) as [response|e].
    + destruct (slide_output_of response); inversion Hr; cbn;
        split; congruence.
    + inversion Hr; cbn; split; congruence.
Qed.

End Claims.

(** ** The claims at concrete inputs *)

Section ClaimsAtInputs.

Local Existing Instance exact_floats.

Lemma rev_permutation (fs : list Future) : Permutation (rev fs) fs.
Proof. apply Permutation_sym, Permutation_rev. Qed.

Lemma one_result_per_brief_witness :
  (forall fs : list Future, Permutation (rev fs) fs)
  /\ Permutation
       (run_parallel_slide_agents Example.second_fails (@rev Future)
          Example.three_briefs "" 5)
       (unit_results Example.second_fails 0 Example.three_briefs "")
  /\ List.length
       (run_parallel_slide_agents Example.second_fails (@rev Future)
          Example.three_briefs "" 5)
     = List.length Example.three_briefs.
Proof.
  split; [exact rev_permutation|].
  exact (one_result_per_brief Example.second_fails (@rev Future)
           rev_permutation Example.three_briefs "" 5).
Defined.

Lemma generation_error_is_captured_witness :
  let b := {| brief_slide_number := 2; brief := "## SLIDE 2 BRIEF: b" |} in
  (forall fs : list Future, Permutation (rev fs) fs)
  /\ nth_error Example.three_briefs 1 = Some b
  /\ load_slide_template (Example.second_fails 1) = Returns "TEMPLATE"
  /\ new_client (Example.second_fails 1) = Returns tt
  /\ generation (Example.second_fails 1)
       (slide_prompt_of 2 "" "## SLIDE 2 BRIEF: b" "TEMPLATE")
     = Raises (Exception "503 UNAVAILABLE")
  /\ exists r,
       run_slide_agent (Example.second_fails 1) 2 "## SLIDE 2 BRIEF: b" ""
       = Returns r
       /\ slide_number r = 2%N
       /\ success r = false
       /\ output r = Some None
       /\ error r = Some "503 UNAVAILABLE"
       /\ In r (run_parallel_slide_agents Example.second_fails (@rev Future)
                  Example.three_briefs "" 5)
       /\ forall j b', nth_error Example.three_briefs j = Some b' ->
            In (unit_result (Example.second_fails j) b' "")
               (run_parallel_slide_agents Example.second_fails (@rev Future)
                  Example.three_briefs "" 5).
Proof.
  cbn zeta. split; [exact rev_permutation|].
  do 4 (split; [reflexivity|]).
  exact (generation_error_is_captured Example.second_fails (@rev Future)
           rev_permutation Example.three_briefs "" 5 1
           {| brief_slide_number := 2; brief := "## SLIDE 2 BRIEF: b" |}
           "TEMPLATE" (Exception "503 UNAVAILABLE")
           eq_refl eq_refl eq_refl eq_refl).
Defined.

(** C4 as first stated fails twice. The text of a brief is not the whole
    span when the span ends in whitespace. And the extractor returns no
    list at all when a header has 4301 digits: the [ValueError] of [int]
    leaves it. *)
Lemma brief_text_is_not_the_whole_span :
  parse_slide_briefs Example.two_briefs
  <> Returns
       (map (fun p => {| brief_slide_number := fst p; brief := snd p |})
          (Spec.briefs Example.two_briefs))
  /\ Spec.count_markers Example.long_header = 2%nat
  /\ parse_slide_briefs Example.long_header
     = Raises (digit_limit_error Example.long_digits).
Proof. vm_compute. repeat split. discriminate. Qed.

Lemma no_markers_aborts_witness :
  let m := {| master_output := Example.no_markers;
              master_thoughts := None;
              master_elapsed_time := 42 |} in
  let run := main (fun _ => "") (Returns m) Example.second_fails (@rev Future) in
  Spec.count_markers (master_output m) = 0%nat
  /\ parse_slide_briefs (master_output m) = Returns []
  /\ snd run = Returns None
  /\ phase2_call_count (fst run) = 0%nat
  /\ (forall units, ~ In (DispatcherRun units) (fst run))
  /\ ~ In AssemblerRun (fst run).
Proof.
  cbn zeta. split; [reflexivity|].
  exact (no_markers_aborts Example.second_fails (@rev Future) (fun _ => "")
           {| master_output := Example.no_markers;
              master_thoughts := None;
              master_elapsed_time := 42 |} eq_refl).
Defined.

Lemma document_has_one_block_per_result_witness :
  let rs := run_parallel_slide_agents Example.second_fails (@rev Future)
              Example.three_briefs "" 5 in
  (forall fs : list Future, Permutation (rev fs) fs)
  /\ assemble_final_document Example.duplicate_markers rs
     = Returns (fixed_sections Example.duplicate_markers
                ++ concat_all (map Spec.block_of rs) ++ production_notes)
  /\ StronglySorted Spec.by_slide_number rs
  /\ List.length (map Spec.block_of rs) = List.length Example.three_briefs
  /\ (forall r, In r rs -> success r = false ->
       exists msg, error r = Some msg
                   /\ Spec.block_of r = Spec.error_block (slide_number r) msg
                   /\ Spec.occurs_in (str (slide_number r)) (Spec.block_of r)
                   /\ Spec.occurs_in msg (Spec.block_of r))
  /\ (forall r, In r rs -> success r = true ->
       exists out, output r = Some (Some out)
                   /\ Spec.block_of r = Spec.output_block out).
Proof.
  cbn zeta. split; [exact rev_permutation|].
  exact (document_has_one_block_per_result Example.second_fails (@rev Future)
           rev_permutation Example.duplicate_markers Example.three_briefs "" 5).
Defined.

(** C7 as first stated fails: with headers 1, 2 and 2 the extractor returns
    three briefs, and the document renders both results of slide 2, where
    last-write-wins would keep one. *)
Lemma duplicates_are_not_overwritten :
  exists briefs,
    parse_slide_briefs Example.duplicate_markers = Returns briefs
    /\ map brief_slide_number briefs = [1; 2; 2]%N
    /\ let rs := run_parallel_slide_agents Example.second_fails
                   (fun fs => fs) briefs "" 5 in
       map slide_number rs = [1; 2; 2]%N
       /\ map slide_number (Spec.last_write_wins rs) = [1; 2]%N
       /\ assemble_final_document Example.duplicate_markers rs
          <> assemble_final_document Example.duplicate_markers
               (Spec.last_write_wins rs).
Proof.
  eexists. split; [reflexivity|]. cbn zeta. repeat split; try reflexivity.
  vm_compute. intros H. inversion H.
Qed.

Lemma duplicates_are_kept_witness :
  over_limit_header Example.duplicate_markers = None
  /\ exists briefs,
       parse_slide_briefs Example.duplicate_markers = Returns briefs
       /\ List.length briefs = Spec.count_markers Example.duplicate_markers
       /\ map brief_slide_number briefs
          = map fst (Spec.briefs Example.duplicate_markers)
       /\ let rs := run_parallel_slide_agents Example.second_fails
                      (@rev Future) briefs "" 5 in
          Permutation (map slide_number rs) (map brief_slide_number briefs)
          /\ StronglySorted Spec.by_slide_number rs
          /\ assemble_final_document Example.duplicate_markers rs
             = Returns (fixed_sections Example.duplicate_markers
                        ++ concat_all (map Spec.block_of rs)
                        ++ production_notes).
Proof.
  split; [reflexivity|].
  exact (duplicates_are_kept Example.second_fails (@rev Future)
           rev_permutation Example.duplicate_markers "" 5 eq_refl).
Defined.


(** C10 as first stated fails twice. The elapsed time is negative when the
    wall clock is set back between its two readings. And a service call
    that returns does not make [success] true: when the response has no
    candidates, the extraction of the answer raises inside the [try] block
    and the unit fails. *)
Lemma run_slide_agent_not_as_stated :
  (exists r t,
     run_slide_agent Example.clock_set_back 1 "brief" "brand" = Returns r
     /\ elapsed_time r = Some t
     /\ ~ 0 <= t)
  /\ (exists response r,
       generate_content Example.empty_answer
         (slide_prompt_of 1 "brand" "brief" "TEMPLATE") = Returns response
       /\ run_slide_agent Example.empty_answer 1 "brief" "brand" = Returns r
       /\ success r = false
       /\ output r = Some None
       /\ error r = Some "list index out of range").
Proof.
  split.
  - eexists. eexists. split; [reflexivity|]. split; [reflexivity|].
    intros H. vm_compute in H. now apply H.
  - eexists. eexists. repeat split; reflexivity.
Qed.

Lemma exact_difference_keeps_order : @difference_keeps_order exact_floats.
Proof.
  intros x y H. cbn. apply (Qplus_le_r _ _ x). ring_simplify. exact H.
Qed.

Lemma run_slide_agent_result_witness :
  let env := Example.answering "ok" in
  exists r,
    run_slide_agent env 1 "brief" "brand" = Returns r
    /\ slide_number r = 1%N
    /\ (forall tmpl response out,
          load_slide_template env = Returns tmpl ->
          generate_content env (slide_prompt_of 1 "brand" "brief" tmpl)
          = Returns response ->
          slide_output_of response = Returns out ->
          success r = true /\ output r = Some (Some out) /\ error r = None
          /\ elapsed_time r = Some (float_sub (clock env 1) (clock env 0)))
    /\ (forall tmpl e,
          load_slide_template env = Returns tmpl ->
          generate_content env (slide_prompt_of 1 "brand" "brief" tmpl)
          = Raises e ->
          success r = false /\ output r = Some None
          /\ error r = Some (message e)
          /\ elapsed_time r = Some (float_sub (clock env 1) (clock env 0)))
    /\ (forall tmpl response e,
          load_slide_template env = Returns tmpl ->
          generate_content env (slide_prompt_of 1 "brand" "brief" tmpl)
          = Returns response ->
          slide_output_of response = Raises e ->
          success r = false /\ output r = Some None
          /\ error r = Some (message e)
          /\ elapsed_time r = Some (float_sub (clock env 2) (clock env 0)))
    /\ (difference_keeps_order ->
        (forall k, clock env 0 <= clock env k) ->
        exists t, elapsed_time r = Some t /\ 0 <= t)
    /\ (success r = true <-> output r <> Some None).
Proof.
  cbn zeta. eexists. split; [reflexivity|].
  exact (run_slide_agent_result (Example.answering "ok") 1 "brief" "brand" _
           eq_refl).
Defined.

End ClaimsAtInputs.

(** ** Further properties of the dispatcher *)

Section Further.

Context {fa : FloatArith}.

Lemma with_slide_number_insert (n : N) (r : Result) (l : list Result) :
  with_slide_number n (insert_by_slide_number r l)
  = with_slide_number n (r :: l).
Proof.
  unfold with_slide_number.
  induction l as [|h t IH]; cbn [insert_by_slide_number]; [reflexivity|].
  destruct (slide_number r <=? slide_number h)%N eqn:Hle; [reflexivity|].
  apply N.leb_gt in Hle. cbn [filter] in *. rewrite IH.
  destruct (slide_number r =? n)%N eqn:Hr; [|reflexivity].
  apply N.eqb_eq in Hr.
  assert (Hh : (slide_number h =? n)%N = false) by (apply N.eqb_neq; lia).
  now rewrite Hh.
Qed.

Lemma with_slide_number_sort (n : N) (l : list Result) :
  with_slide_number n (sort_by_slide_number l) = with_slide_number n l.
Proof.
  induction l as [|r l IH]; [reflexivity|].
  unfold sort_by_slide_number in *. cbn [fold_right].
  rewrite with_slide_number_insert. unfold with_slide_number in *.
  cbn [filter]. now rewrite IH.
Qed.

(** X1. The sort of the dispatcher is stable: among the results that carry
    the same slide number, the returned list keeps the order in which their
    futures completed. *)
Theorem ties_keep_completion_order (agent_env : nat -> AgentEnv)
  (as_completed : list Future -> list Future) (briefs : list Brief)
  (bd : string) (mw : nat) (n : N) :
  with_slide_number n
    (run_parallel_slide_agents agent_env as_completed briefs bd mw)
  = with_slide_number n
      (map result_of_future (as_completed (submit_all agent_env 0 briefs bd))).
Proof.
  unfold run_parallel_slide_agents.
  now rewrite with_slide_number_sort, fold_left_collect.
Qed.

(** X2. Among the instances of [Exception], [run_slide_agent] raises only
    those of its set-up: it raises [e] exactly when loading the template
    raises [e], or the template loads and the client constructor raises
    [e]. Whatever instance of [Exception] the service call or the
    extraction of its answer raises is turned into a returned dict. *)
Theorem run_slide_agent_raises_only_in_setup (env : AgentEnv) (n : N)
  (b bd : string) (e : exception) :
  run_slide_agent env n b bd = Raises e
  <-> load_slide_template env = Raises e
      \/ ((exists tmpl, load_slide_template env = Returns tmpl)
          /\ new_client env = Raises e).
Proof.
  unfold run_slide_agent, bind.
  destruct (load_slide_template env) as [tmpl|e1].
  - destruct (new_client env) as [[]|e2].
    + destruct (generate_content env _) as [response|e3].
      * destruct (slide_output_of response); split;
          [discriminate | intros [H | [_ H]]; discriminate
          | discriminate | intros [H | [_ H]]; discriminate].
      * split; [discriminate | intros [H | [_ H]]; discriminate].
    + split.
      * intros H. right. split; [now exists tmpl | congruence].
      * intros [H | [_ H]]; [discriminate | congruence].
  - split.
    + intros H. left. congruence.
    + intros [H | [[tmpl H] _]]; [congruence | discriminate].
Qed.

Section FurtherDispatcher.

Variable agent_env : nat -> AgentEnv.
Variable as_completed : list Future -> list Future.
Hypothesis as_completed_permutation :
  forall fs, Permutation (as_completed fs) fs.

(** X3. When [run_slide_agent] itself raises for a unit (its template or
    its client could not be set up), the dispatcher records a failed result
    for that unit: the slide number of the brief and the message, without
    [output] and without [elapsed_time]. *)
Theorem setup_error_is_recorded (briefs : list Brief) (bd : string)
  (mw i : nat) (b : Brief) (e : exception) :
  nth_error briefs i = Some b ->
  run_slide_agent (agent_env i) (brief_slide_number b) (brief b) bd
  = Raises e ->
  In {| slide_number := brief_slide_number b;
        output := None;
        elapsed_time := None;
        success := false;
        error := Some (message e) |}
     (run_parallel_slide_agents agent_env as_completed briefs bd mw).
Proof.
  intros Hb Hr.
  apply (Permutation_in _
           (Permutation_sym
              (dispatcher_permutation agent_env as_completed
                 as_completed_permutation briefs bd mw))).
  pose proof (unit_results_nth agent_env bd briefs 0 i b Hb) as Hin.
  unfold unit_result in Hin. cbn [Nat.add] in Hin. now rewrite Hr in Hin.
Qed.

End FurtherDispatcher.

(** ** Further properties of the slide agent *)

Lemma join_from_raises (sep : string) (items : list (option string)) :
  forall i, (exists e, join_from sep i items = Raises e) <-> In None items.
Proof.
  induction items as [|[t|] rest IH]; intros i; cbn [join_from In].
  - split; [intros [e H]; discriminate | intros []].
  - unfold bind. specialize (IH (i + 1)%N).
    destruct (join_from sep (i + 1) rest) as [tl|e0].
    + split; [intros [e H]; discriminate|].
      intros [H | H]; [discriminate|].
      apply IH in H. destruct H as [e H]. discriminate.
    + split; [intros _; right; apply IH; now exists e0|].
      intros _. now exists e0.
  - split; [intros _; now left | intros _; eexists; reflexivity].
Qed.

Lemma join_from_concat (sep : string) (ts : list string) :
  forall i, join_from sep i (map Some ts) = Returns (String.concat sep ts).
Proof.
  induction ts as [|t rest IH]; intros i; [reflexivity|].
  cbn [map join_from]. rewrite IH. cbn [bind].
  destruct rest; reflexivity.
Qed.

Lemma all_present (items : list (option string)) :
  ~ In None items -> exists ts, items = map Some ts.
Proof.
  induction items as [|[t|] rest IH]; intros H.
  - now exists [].
  - destruct IH as [ts ->]; [intros Hin; apply H; now right|].
    now exists (t :: ts).
  - elim H. now left.
Qed.

Lemma first_candidate_parts_raises (response : Response) :
  (exists e, first_candidate_parts response = Raises e)
  <-> lacks_parts response.
Proof.
  unfold first_candidate_parts, lacks_parts.
  destruct (candidates response) as [[|candidate rest]|].
  - split; [trivial | intros _; eexists; reflexivity].
  - destruct (content candidate) as [c|].
    + destruct (parts c) as [ps|].
      * split; [intros [e H]; discriminate | discriminate].
      * split; [reflexivity | intros _; eexists; reflexivity].
    + split; [trivial | intros _; eexists; reflexivity].
  - split; [trivial | intros _; eexists; reflexivity].
Qed.

(** X4. The extraction of the answer fails exactly when the response offers
    no list of parts ([candidates] is [None] or empty, or the [content] of
    the first candidate or its [parts] is [None]), or that list has a part
    that is not a thought and has no text; a thought without text does no
    harm. When it succeeds the output is the texts of the parts that are
    not thoughts, in order, separated by blank lines. *)
Theorem slide_output_of_behaviour (response : Response) :
  ((exists e, slide_output_of response = Raises e)
   <-> lacks_parts response
       \/ exists ps, first_candidate_parts response = Returns ps
                     /\ Exists textless_answer ps)
  /\ (forall out, slide_output_of response = Returns out ->
      exists ps ts,
        first_candidate_parts response = Returns ps
        /\ answer_texts ps = map Some ts
        /\ out = String.concat (nl ++ nl) ts).
Proof.
  unfold slide_output_of, bind.
  pose proof (first_candidate_parts_raises response) as Hlack.
  destruct (first_candidate_parts response) as [ps|e0].
  - fold (answer_texts ps). unfold join. split.
    + rewrite join_from_raises. unfold answer_texts.
      rewrite in_map_iff. unfold textless_answer. split.
      * intros (p & Ht & Hp). apply filter_In in Hp as [Hin Hth].
        right. exists ps. split; [reflexivity|].
        apply Exists_exists. exists p. repeat split; trivial.
        now destruct (thought p).
      * intros [H | (ps' & Hps & Hex)].
        { apply Hlack in H. destruct H as [e H]. discriminate. }
        inversion Hps; subst ps'.
        apply Exists_exists in Hex as (p & Hin & Hth & Ht).
        exists p. split; [exact Ht|].
        apply filter_In. split; [exact Hin | now rewrite Hth].
    + intros out H.
      destruct (all_present (answer_texts ps)) as [ts Hts].
      { intros Hin. apply (join_from_raises (nl ++ nl) _ 0%N) in Hin.
        destruct Hin as [e He]. congruence. }
      exists ps, ts. repeat split; [exact Hts|].
      rewrite Hts, join_from_concat in H. now inversion H.
  - split; [|intros out H; discriminate].
    split; [|intros _; now exists e0].
    intros _. left. apply Hlack. now exists e0.
Qed.

(** ** Further properties of the assembler *)

Lemma add_result_raises (doc : string) (r : Result) :
  (lacks_output r -> add_result doc r = Raises (Exception "'output'"))
  /\ (~ lacks_output r -> exists block, add_result doc r = Returns (doc ++ block)).
Proof.
  unfold lacks_output, add_result.
  destruct (success r); [destruct (output r) as [[out|]|]|].
  - split; [intros [_ H]; discriminate | intros _; eexists; reflexivity].
  - split; [intros [_ H]; discriminate | intros _; eexists; reflexivity].
  - split; [reflexivity | intros H; elim H; now split].
  - split; [intros [H _]; discriminate|].
    intros _. eexists. rewrite !append_assoc. reflexivity.
Qed.

Lemma lacks_output_dec (r : Result) : lacks_output r \/ ~ lacks_output r.
Proof.
  unfold lacks_output. destruct (success r); [|right; intros [H _]; discriminate].
  destruct (output r); [right; intros [_ H]; discriminate | now left].
Qed.

Lemma some_lacks_output_dec (rs : list Result) :
  Exists lacks_output rs \/ ~ Exists lacks_output rs.
Proof.
  induction rs as [|r rs [IH | IH]].
  - right. intros H. inversion H.
  - left. now right.
  - destruct (lacks_output_dec r) as [Hr | Hr]; [left; now left|].
    right. intros H. inversion H; contradiction.
Qed.

Lemma add_results_raises (rs : list Result) :
  forall doc,
  (Exists lacks_output rs ->
   add_results doc rs = Raises (Exception "'output'"))
  /\ (~ Exists lacks_output rs ->
      exists blocks, add_results doc rs = Returns (doc ++ blocks)).
Proof.
  induction rs as [|r rs IH]; intros doc; cbn [add_results].
  - split; [intros H; inversion H|].
    intros _. exists "". now rewrite append_empty_r.
  - destruct (add_result_raises doc r) as [Hbad Hgood].
    destruct (lacks_output_dec r) as [Hr | Hr].
    + rewrite (Hbad Hr). cbn [bind].
      split; [reflexivity | intros H; elim H; now left].
    + destruct (Hgood Hr) as [block ->]. cbn [bind].
      destruct (IH (doc ++ block)) as [IHbad IHgood]. split.
      * intros H. inversion H; subst; [contradiction | now apply IHbad].
      * intros H. destruct IHgood as [blocks ->].
        { intros Hrs. apply H. now right. }
        exists (block ++ blocks). now rewrite append_assoc.
Qed.

(** X5. The assembler raises [KeyError('output')] exactly when some result
    is marked successful and has no [output] key; for every other list of
    results, in whatever order and failed or not, it returns a document that
    starts with the fixed sections and ends with the production notes. *)
Theorem assemble_raises_iff (master : string) (rs : list Result) :
  (assemble_final_document master rs = Raises (Exception "'output'")
   <-> Exists lacks_output rs)
  /\ (~ Exists lacks_output rs ->
      exists blocks,
        assemble_final_document master rs
        = Returns (fixed_sections master ++ blocks ++ production_notes)).
Proof.
  unfold assemble_final_document.
  destruct (add_results_raises rs (fixed_sections master)) as [Hbad Hgood].
  split; [split|].
  - intros H.
    destruct (some_lacks_output_dec rs) as [Hex | Hex]; [exact Hex|].
    destruct (Hgood Hex) as [blocks Hb]. rewrite Hb in H. discriminate.
  - intros Hex. now rewrite (Hbad Hex).
  - intros Hex. destruct (Hgood Hex) as [blocks ->]. cbn [bind].
    exists blocks. now rewrite append_assoc.
Qed.

(** ** Further properties of the statistics *)

Lemma elapsed_times_inv (rs : list Result) :
  forall ts, elapsed_times rs = Returns ts -> map elapsed_time rs = map Some ts.
Proof.
  induction rs as [|r rs IH]; intros ts H; cbn [elapsed_times] in H.
  - now inversion H.
  - destruct (elapsed_time r) as [t|] eqn:Hr; [|discriminate].
    unfold bind in H.
    destruct (elapsed_times rs) as [ts'|]; [|discriminate].
    inversion H; subst. cbn [map]. now rewrite Hr, (IH ts' eq_refl).
Qed.

Lemma elapsed_times_missing (rs : list Result) (r : Result) :
  In r rs -> elapsed_time r = None ->
  elapsed_times rs = Raises (Exception "'elapsed_time'").
Proof.
  intros Hin Hr. induction rs as [|r0 rs IH]; [elim Hin|].
  cbn [elapsed_times]. destruct Hin as [-> | Hin].
  - now rewrite Hr.
  - destruct (elapsed_time r0); [|reflexivity]. now rewrite (IH Hin).
Qed.

Lemma count_partition (rs : list Result) :
  (List.length (filter success rs)
   + List.length (filter (fun r => negb (success r)) rs))%nat
  = List.length rs.
Proof.
  induction rs as [|r rs IH]; [reflexivity|].
  cbn [filter]. destruct (success r); cbn [negb List.length]; lia.
Qed.

Lemma combine_times (rs : list Result) :
  forall ts, map elapsed_time rs = map Some ts ->
  map (fun x : N * Q * bool => (fst (fst x), Some (snd (fst x)), snd x))
    (map (fun rt : Result * Q =>
            (slide_number (fst rt), snd rt, success (fst rt)))
       (combine rs ts))
  = map (fun r => (slide_number r, elapsed_time r, success r)) rs.
Proof.
  induction rs as [|r rs IH]; intros [|t ts] H; try discriminate;
    [reflexivity|].
  cbn [map] in H. inversion H as [[Hr Hrs]].
  cbn [combine map fst snd]. now rewrite Hr, (IH ts Hrs).
Qed.

(** X6. Whenever [save_results] builds its metadata, the counts add up:
    [total_slides] is the number of results, the successful and the failed
    ones together make the total, [slide_times] lists, in the order of the
    results, every slide number with its elapsed time and success,
    [master_planning_time] is the elapsed time of the master result, and
    [total_generation_time] is the float sum of the master planning time
    and the longest elapsed time among the results. *)
Theorem metadata_is_consistent (format_2f : Q -> string) (mr : MasterResult)
  (rs : list Result) (doc : string) (md : Metadata) :
  save_results format_2f mr rs doc = Returns md ->
  total_slides md = List.length rs
  /\ (successful_slides md + failed_slides md)%nat = total_slides md
  /\ map (fun x : N * Q * bool => (fst (fst x), Some (snd (fst x)), snd x))
       (slide_times md)
     = map (fun r => (slide_number r, elapsed_time r, success r)) rs
  /\ master_planning_time md = master_elapsed_time mr
  /\ exists longest,
       (exists r, In r rs /\ elapsed_time r = Some longest)
       /\ (forall r t, In r rs -> elapsed_time r = Some t -> t <= longest)
       /\ total_generation_time md
          = float_add (master_planning_time md) longest.
Proof.
  unfold save_results, bind. intros H.
  destruct (elapsed_times rs) as [ts|] eqn:Hts; [|discriminate].
  destruct (py_max ts) as [longest|] eqn:Hmax; [|discriminate].
  destruct (parallel_speedup format_2f rs) as [speedup|]; [|discriminate].
  inversion H; subst md; cbn.
  pose proof (elapsed_times_inv rs ts Hts) as Hmap.
  repeat split; [apply count_partition | exact (combine_times rs ts Hmap)|].
  destruct (py_max_is_maximum _ _ Hmax) as [Hlong Hall].
  exists longest. repeat split.
  - apply (in_map Some) in Hlong. rewrite <- Hmap in Hlong.
    apply in_map_iff in Hlong as (r & Hr & Hin). now exists r.
  - intros r t Hin Hr. apply Hall.
    apply (in_map elapsed_time) in Hin. rewrite Hr, Hmap in Hin.
    apply in_map_iff in Hin as (t' & Heq & Hin). now inversion Heq; subst.
Qed.

(** X7. A result without the [elapsed_time] key, which is what the
    dispatcher records for a unit whose [run_slide_agent] raised, makes both
    the speedup expression and [save_results] raise
    [KeyError('elapsed_time')]. *)
Theorem missing_elapsed_time_raises (format_2f : Q -> string)
  (mr : MasterResult) (rs : list Result) (doc : string) (r : Result) :
  In r rs -> elapsed_time r = None ->
  parallel_speedup format_2f rs = Raises (Exception "'elapsed_time'")
  /\ save_results format_2f mr rs doc = Raises (Exception "'elapsed_time'").
Proof.
  intros Hin Hr. unfold parallel_speedup, save_results.
  now rewrite (elapsed_times_missing rs r Hin Hr).
Qed.

(** X8. When every result carries an elapsed time and the longest one is
    zero, the speedup expression divides by zero: it raises
    [ZeroDivisionError], and so does [save_results]. *)
Theorem zero_longest_time_raises (format_2f : Q -> string)
  (mr : MasterResult) (rs : list Result) (doc : string) (ts : list Q)
  (longest : Q) :
  map elapsed_time rs = map Some ts ->
  py_max ts = Returns longest ->
  longest == 0 ->
  parallel_speedup format_2f rs = Raises (Exception "float division by zero")
  /\ save_results format_2f mr rs doc
     = Raises (Exception "float division by zero").
Proof.
  intros Hts Hmax Hzero.
  assert (Hsp : parallel_speedup format_2f rs
                = Raises (Exception "float division by zero")).
  { unfold parallel_speedup. rewrite (elapsed_times_present _ _ Hts).
    cbn [bind]. rewrite Hmax. cbn [bind]. unfold py_div.
    apply Qeq_bool_iff in Hzero. now rewrite Hzero. }
  split; [exact Hsp|].
  unfold save_results. rewrite (elapsed_times_present _ _ Hts). cbn [bind].
  rewrite Hmax. cbn [bind]. now rewrite Hsp.
Qed.

(** ** Further properties of the orchestrator *)

Lemma sets_up_returns (env : AgentEnv) (n : N) (b bd : string) :
  difference_keeps_strict_order ->
  sets_up env -> clock_advances env ->
  exists r, run_slide_agent env n b bd = Returns r /\ timed r.
Proof.
  intros Hsub [[tmpl Ht] Hc] Hclock.
  destruct (run_slide_agent env n b bd) as [r|e] eqn:Hr.
  - exists r. split; [reflexivity|].
    destruct (run_slide_agent_shape _ _ _ _ _ Hr) as (_ & _ & k & Hk).
    eexists. split; [exact Hk|]. apply Hsub, Hclock.
  - unfold run_slide_agent, bind in Hr. rewrite Ht, Hc in Hr.
    destruct (generate_content env _) as [response|];
      [destruct (slide_output_of response)|]; discriminate.
Qed.

Lemma unit_results_timed (agent_env : nat -> AgentEnv) (bd : string)
  (briefs : list Brief) :
  difference_keeps_strict_order ->
  (forall i, sets_up (agent_env i)) ->
  (forall i, clock_advances (agent_env i)) ->
  forall i, Forall timed (unit_results agent_env i briefs bd).
Proof.
  intros Hsub Hsetup Hclock.
  induction briefs as [|b rest IH]; intros i; [constructor|].
  cbn [unit_results]. constructor; [|apply IH].
  unfold unit_result.
  destruct (sets_up_returns (agent_env i) (brief_slide_number b) (brief b) bd
              Hsub (Hsetup i) (Hclock i)) as (r & -> & Hr).
  exact Hr.
Qed.

Lemma timed_elapsed_times (rs : list Result) :
  Forall timed rs ->
  exists ts, map elapsed_time rs = map Some ts
             /\ Forall (fun t => 0 < t) ts.
Proof.
  induction 1 as [|r rs (t & Hr & Ht) _ (ts & Hts & Hpos)].
  - exists []. now split.
  - exists (t :: ts). cbn [map]. rewrite Hr, Hts. split; [reflexivity|].
    now constructor.
Qed.

Lemma py_max_positive (ts : list Q) :
  ts <> [] -> Forall (fun t => 0 < t) ts ->
  exists longest, py_max ts = Returns longest /\ 0 < longest.
Proof.
  intros Hne Hpos. destruct ts as [|t rest]; [now elim Hne|].
  eexists. split; [reflexivity|].
  destruct (py_max_is_maximum (t :: rest) _ eq_refl) as [Hin _].
  exact (proj1 (Forall_forall _ _) Hpos _ Hin).
Qed.

Lemma statistics_of_timed (format_2f : Q -> string) (mr : MasterResult)
  (rs : list Result) (doc : string) :
  rs <> [] -> Forall timed rs ->
  exists md speedup,
    save_results format_2f mr rs doc = Returns md
    /\ parallel_speedup format_2f rs = Returns speedup
    /\ total_slides md = List.length rs.
Proof.
  intros Hne Hrs.
  destruct (timed_elapsed_times rs Hrs) as (ts & Hts & Hpos).
  assert (Hts_ne : ts <> []).
  { intros ->. destruct rs; [now elim Hne | discriminate]. }
  destruct (py_max_positive ts Hts_ne Hpos) as (longest & Hmax & Hlong).
  assert (Hsp : parallel_speedup format_2f rs
                = Returns (format_2f (float_div (py_sum ts) longest) ++ "x")).
  { unfold parallel_speedup. rewrite (elapsed_times_present _ _ Hts).
    cbn [bind]. rewrite Hmax. cbn [bind].
    now rewrite (py_div_positive _ _ Hlong). }
  unfold save_results. rewrite (elapsed_times_present _ _ Hts). cbn [bind].
  rewrite Hmax. cbn [bind]. rewrite Hsp. cbn [bind].
  eexists. eexists. repeat split.
Qed.

Lemma calls_at_most_briefs (agent_env : nat -> AgentEnv) (bd : string)
  (briefs : list Brief) :
  forall i,
  (List.length (flat_map future_calls (submit_all agent_env i briefs bd))
   <= List.length briefs)%nat.
Proof.
  induction briefs as [|b rest IH]; intros i; [apply le_n|].
  cbn [submit_all flat_map future_calls]. rewrite length_app.
  specialize (IH (S i)). unfold slide_agent_calls.
  destruct (load_slide_template (agent_env i));
    destruct (new_client (agent_env i)); cbn [List.length]; lia.
Qed.

Lemma phase2_call_count_calls (prompts : list string) (tail : list event) :
  phase2_call_count (map SlideAgentCall prompts ++ tail)%list
  = (List.length prompts + phase2_call_count tail)%nat.
Proof.
  unfold phase2_call_count.
  induction prompts as [|p ps IH]; [reflexivity|].
  cbn [map app filter List.length]. now rewrite IH.
Qed.

Section Runs.

Variable format_2f : Q -> string.
Variable agent_env : nat -> AgentEnv.
Variable as_completed : list Future -> list Future.
Hypothesis as_completed_permutation :
  forall fs, Permutation (as_completed fs) fs.

(** X10. Partial failure is not fatal. When the extractor returns at least
    one brief, every unit can set up its template and client, the clock
    moves forward and float subtraction keeps that order, [main] runs to
    its end whatever instances of [Exception] the service calls raise: it
    assembles the document of all results and saves the statistics of as
    many slides as the master output has headers. *)
Theorem main_completes_despite_failed_units (m : MasterResult)
  (briefs : list Brief) :
  difference_keeps_strict_order ->
  parse_slide_briefs (master_output m) = Returns briefs ->
  briefs <> [] ->
  (forall i, sets_up (agent_env i)) ->
  (forall i, clock_advances (agent_env i)) ->
  let run := main format_2f (Returns m) agent_env as_completed in
  let rs :=
    run_parallel_slide_agents agent_env as_completed briefs
      (extract_brand_and_design_system (master_output m)) 5 in
  (exists summary,
     snd run = Returns (Some summary)
     /\ final_document summary
        = fixed_sections (master_output m)
          ++ concat_all (map Spec.block_of rs) ++ production_notes
     /\ total_slides (metadata summary)
        = Spec.count_markers (master_output m))
  /\ In AssemblerRun (fst run)
  /\ In SaveResults (fst run).
Proof.
  intros Hsub Hparse Hne Hsetup Hclock. cbn zeta.
  assert (Hlen : List.length briefs = Spec.count_markers (master_output m)).
  { destruct (parse_slide_briefs_returns _ _ Hparse) as [_ ->].
    rewrite length_map. apply briefs_count. }
  set (bd := extract_brand_and_design_system (master_output m)) in *.
  pose proof (dispatcher_permutation agent_env as_completed
                as_completed_permutation briefs bd 5) as Hperm.
  pose proof (dispatcher_well_formed agent_env as_completed
                as_completed_permutation briefs bd 5) as Hwf.
  pose proof (Permutation_Forall (Permutation_sym Hperm)
                (unit_results_timed agent_env bd _ Hsub Hsetup Hclock 0))
    as Htimed.
  assert (Hrs : run_parallel_slide_agents agent_env as_completed briefs bd 5
                <> []).
  { intros Hnil. apply Hne.
    pose proof (Permutation_length Hperm) as Hl.
    rewrite Hnil, (unit_results_length agent_env bd _ 0) in Hl.
    now destruct briefs. }
  destruct (statistics_of_timed format_2f m _
              (fixed_sections (master_output m)
               ++ concat_all (map Spec.block_of
                    (run_parallel_slide_agents agent_env as_completed
                       briefs bd 5))
               ++ production_notes) Hrs Htimed)
    as (md & speedup & Hsave & Hsp & Htotal).
  unfold main. fold bd. rewrite Hparse.
  destruct briefs as [|b bs]; [now elim Hne|].
  rewrite (assemble_blocks (master_output m) _ Hwf).
  cbn [fst snd]. rewrite Hsave, Hsp. cbn [bind].
  split; [|split].
  - eexists. split; [reflexivity|]. cbn [final_document metadata].
    split; [reflexivity|].
    rewrite Htotal, (Permutation_length Hperm), unit_results_length.
    exact Hlen.
  - right. right. apply in_or_app. right. now left.
  - right. right. apply in_or_app. right. right. now left.
Qed.

End Runs.

Section Gates.

Variable format_2f : Q -> string.
Variable run_master_planning : outcome MasterResult.
Variable agent_env : nat -> AgentEnv.
Variable as_completed : list Future -> list Future.

(** X11. Phase 2 is gated by phase 1: whatever phase 1 does, the dispatcher
    runs only after the master planning returned a text with at least one
    brief header, and then on exactly as many units as there are headers;
    the number of slide agent calls never exceeds that number, and when
    phase 1 raises the exception leaves [main]. *)
Theorem dispatcher_runs_only_on_briefs :
  let run := main format_2f run_master_planning agent_env as_completed in
  (forall units, In (DispatcherRun units) (fst run) ->
     exists m, run_master_planning = Returns m
               /\ units = Spec.count_markers (master_output m)
               /\ units <> 0%nat
               /\ (phase2_call_count (fst run) <= units)%nat)
  /\ (forall e, run_master_planning = Raises e ->
        run = ([MasterPlanningCall], Raises e)).
Proof.
  cbn zeta. unfold main.
  destruct run_master_planning as [m|e0]; [|split].
  2:{ intros units [H | []]. discriminate H. }
  2:{ intros e H. now inversion H. }
  split; [|intros e H; discriminate].
  set (bd := extract_brand_and_design_system (master_output m)) in *.
  destruct (parse_slide_briefs (master_output m)) as [[|b bs]|e] eqn:Hparse.
  1,3: intros units [H | []]; discriminate H.
  assert (Hlen : List.length (b :: bs)
                 = Spec.count_markers (master_output m)).
  { destruct (parse_slide_briefs_returns _ _ Hparse) as [_ ->].
    rewrite length_map. apply briefs_count. }
  pose proof (calls_at_most_briefs agent_env bd (b :: bs) 0) as Hcalls.
  assert (Hcount : forall tail, phase2_call_count tail = 0%nat ->
            (phase2_call_count
               (MasterPlanningCall
                :: (DispatcherRun (List.length (b :: bs))
                    :: map SlideAgentCall
                         (flat_map future_calls
                            (submit_all agent_env 0 (b :: bs) bd))) ++ tail)
             <= List.length (b :: bs))%nat).
  { intros tail Htail. unfold phase2_call_count. cbn [filter app].
    fold (phase2_call_count
            (map SlideAgentCall
               (flat_map future_calls (submit_all agent_env 0 (b :: bs) bd))
             ++ tail)%list).
    rewrite phase2_call_count_calls, Htail. lia. }
  assert (Hunits : forall units tail,
            (forall k, ~ In (DispatcherRun k) tail) ->
            In (DispatcherRun units)
               (MasterPlanningCall
                :: (DispatcherRun (List.length (b :: bs))
                    :: map SlideAgentCall
                         (flat_map future_calls
                            (submit_all agent_env 0 (b :: bs) bd))) ++ tail) ->
            units = List.length (b :: bs)).
  { intros units tail Htail [H | [H | H]]; [discriminate | now inversion H|].
    apply in_app_or in H as [H | H]; [|now elim (Htail units)].
    apply in_map_iff in H as (p & Hp & _). discriminate. }
  destruct (assemble_final_document (master_output m) _) as [doc|e];
    cbn [fst]; intros units Hin; exists m.
  - assert (Hu : units = List.length (b :: bs)).
    { apply (Hunits units [AssemblerRun; SaveResults]); [|exact Hin].
      intros k [H | [H | []]]; discriminate. }
    subst units. repeat split; [exact Hlen | discriminate|].
    now apply Hcount.
  - assert (Hu : units = List.length (b :: bs)).
    { apply (Hunits units [AssemblerRun]); [|exact Hin].
      intros k [H | []]; discriminate. }
    subst units. repeat split; [exact Hlen | discriminate|].
    now apply Hcount.
Qed.

End Gates.

Section Crash.

Variable format_2f : Q -> string.
Variable agent_env : nat -> AgentEnv.
Variable as_completed : list Future -> list Future.
Hypothesis as_completed_permutation :
  forall fs, Permutation (as_completed fs) fs.

(** X12. A unit whose [run_slide_agent] raises (its template or client
    could not be set up) brings the whole run down after the document has
    been assembled: the dispatcher records a result without [elapsed_time],
    the assembler renders it, and [save_results] raises
    [KeyError('elapsed_time')], which leaves [main]. *)
Theorem run_fails_when_a_unit_cannot_set_up (m : MasterResult)
  (briefs : list Brief) (i : nat) (b : Brief) (e : exception) :
  parse_slide_briefs (master_output m) = Returns briefs ->
  nth_error briefs i = Some b ->
  run_slide_agent (agent_env i) (brief_slide_number b) (brief b)
    (extract_brand_and_design_system (master_output m)) = Raises e ->
  let run := main format_2f (Returns m) agent_env as_completed in
  snd run = Raises (Exception "'elapsed_time'")
  /\ In AssemblerRun (fst run)
  /\ In SaveResults (fst run).
Proof.
  intros Hparse Hb Hr. cbn zeta.
  set (bd := extract_brand_and_design_system (master_output m)) in *.
  pose proof (dispatcher_permutation agent_env as_completed
                as_completed_permutation briefs bd 5) as Hperm.
  pose proof (unit_results_nth agent_env bd _ 0 i b Hb) as Hin.
  unfold unit_result in Hin. cbn [Nat.add] in Hin. rewrite Hr in Hin.
  apply (Permutation_in _ (Permutation_sym Hperm)) in Hin. clear Hperm.
  pose proof (dispatcher_well_formed agent_env as_completed
                as_completed_permutation briefs bd 5) as Hwf.
  unfold main. fold bd. rewrite Hparse.
  destruct briefs as [|b0 bs]; [now destruct i|].
  rewrite (assemble_blocks (master_output m) _ Hwf). cbn [fst snd].
  unfold save_results.
  rewrite (elapsed_times_missing _ _ Hin eq_refl). cbn [bind].
  split; [reflexivity|]. split.
  - right. right. apply in_or_app. right. now left.
  - right. right. apply in_or_app. right. right. now left.
Qed.

End Crash.

(** ** Further properties of the brief extractor *)

Lemma strip_prefix_mono (lit p w r : string) :
  strip_prefix lit p = Some r -> strip_prefix lit (p ++ w) = Some (r ++ w).
Proof.
  intros H. rewrite (strip_prefix_inv _ _ _ H), append_assoc.
  apply strip_prefix_append.
Qed.

Lemma is_boundary_mono (p w : string) :
  Spec.is_boundary p = true -> Spec.is_boundary (p ++ w) = true.
Proof.
  unfold Spec.is_boundary, is_header, startswith. intros H.
  apply orb_true_iff in H as [H | H]; apply orb_true_iff.
  - left. destruct (match_header p) as [[ds rest]|] eqn:Hm; [|discriminate].
    destruct (match_header_inv _ _ _ Hm) as (-> & Hd & Hne).
    now rewrite append_assoc, (match_header_intro ds (rest ++ w) Hd Hne).
  - right. destruct (strip_prefix "## NEXT STEPS" p) as [r|] eqn:Hs;
      [|discriminate].
    now rewrite (strip_prefix_mono _ _ w _ Hs).
Qed.

Lemma span_is_prefix (a : string) :
  exists w, a = Spec.span_until_boundary a ++ w.
Proof.
  induction a as [|c a [w IH]]; [now exists ""|].
  cbn [Spec.span_until_boundary].
  destruct (Spec.is_boundary (String c a)); [now exists (String c a)|].
  exists w. cbn [append]. now rewrite <- IH.
Qed.

Lemma no_boundary_prefix (p w : string) :
  no_boundary (p ++ w) = true -> no_boundary p = true.
Proof.
  induction p as [|c p IH]; [reflexivity|].
  cbn [append no_boundary]. intros H.
  apply andb_true_iff in H as [Hb Hrest]. apply andb_true_iff. split.
  - destruct (Spec.is_boundary (String c p)) eqn:Hp; [|reflexivity].
    apply (is_boundary_mono _ w) in Hp. cbn [append] in Hp.
    now rewrite Hp in Hb.
  - exact (IH Hrest).
Qed.

Lemma span_no_boundary (a : string) :
  no_boundary (Spec.span_until_boundary a) = true.
Proof.
  induction a as [|c a IH]; [reflexivity|].
  cbn [Spec.span_until_boundary].
  destruct (Spec.is_boundary (String c a)) eqn:Hb; [reflexivity|].
  cbn [no_boundary]. rewrite IH, andb_true_r.
  destruct (Spec.is_boundary (String c (Spec.span_until_boundary a))) eqn:Hp;
    [|reflexivity].
  destruct (span_is_prefix a) as [w Hw].
  apply (is_boundary_mono _ w) in Hp. cbn [append] in Hp.
  rewrite <- Hw in Hp. congruence.
Qed.

Lemma rstrip_is_prefix (u : string) : exists w, u = rstrip u ++ w.
Proof.
  induction u as [|c u [w IH]]; [now exists ""|].
  cbn [rstrip]. destruct (rstrip u) as [|a r] eqn:Hr.
  - destruct (is_space c); [now exists (String c u)|].
    exists w. cbn [append] in *. now rewrite <- IH.
  - exists w. cbn [append] in *. now rewrite <- IH.
Qed.

Lemma rstrip_idempotent (u : string) : rstrip (rstrip u) = rstrip u.
Proof.
  induction u as [|c u IH]; [reflexivity|].
  cbn [rstrip]. destruct (rstrip u) as [|a r] eqn:Hr.
  - destruct (is_space c) eqn:Hc; [reflexivity|].
    cbn [rstrip]. now rewrite Hc.
  - cbn [rstrip] in *. rewrite IH. reflexivity.
Qed.

Lemma rstrip_fixed_tail (c : ascii) (v : string) :
  rstrip (String c v) = String c v ->
  rstrip v = v /\ at_dollar (String c v) = false.
Proof.
  cbn [rstrip]. destruct (rstrip v) as [|a r] eqn:Hr.
  - destruct (is_space c) eqn:Hc; [discriminate|].
    intros H. inversion H as [Hv]. subst v. split; [reflexivity|].
    cbn [at_dollar].
    destruct (Ascii.eqb_spec c (ascii_of_nat 10)) as [-> |]; [|reflexivity].
    discriminate Hc.
  - intros H. inversion H as [Hv]. split; [congruence | reflexivity].
Qed.

Lemma rstrip_after_nonspace (p : string) (c : ascii) (u : string) :
  is_space c = false ->
  rstrip (p ++ String c u) = p ++ String c (rstrip u).
Proof.
  intros Hc. induction p as [|a p IH]; cbn [append rstrip].
  - rewrite Hc. now destruct (rstrip u).
  - rewrite IH. now destruct p.
Qed.

Lemma rstrip_header (ds u : string) :
  rstrip (header_text ds ++ u) = header_text ds ++ rstrip u.
Proof.
  assert (H : forall x, header_text ds ++ x
                        = ("## SLIDE " ++ ds ++ " BRIEF") ++ String ":" x).
  { intros x. unfold header_text, header_tail. cbn [append]. do 9 f_equal.
    now rewrite !append_assoc. }
  rewrite !H. now apply rstrip_after_nonspace.
Qed.

Lemma strip_header (ds u : string) :
  strip (header_text ds ++ u) = header_text ds ++ rstrip u.
Proof.
  unfold strip. change (lstrip (header_text ds ++ u)) with (header_text ds ++ u).
  apply rstrip_header.
Qed.

Lemma lazy_until_clean (v : string) :
  no_boundary v = true -> rstrip v = v ->
  lazy_until slide_stop v = Some (v, "").
Proof.
  induction v as [|c v IH]; intros Hb Hr; [reflexivity|].
  destruct (rstrip_fixed_tail c v Hr) as [Hv Hd].
  cbn [no_boundary] in Hb. apply andb_true_iff in Hb as [Hb Hrest].
  apply negb_true_iff in Hb.
  cbn [lazy_until].
  assert (Hstop : slide_stop (String c v) = false).
  { unfold slide_stop. unfold Spec.is_boundary in Hb.
    apply orb_false_iff in Hb as [-> ->]. exact Hd. }
  rewrite Hstop, (IH Hrest Hv). reflexivity.
Qed.

Lemma drop_all (a : string) : drop (String.length a) a = "".
Proof. induction a as [|c a IH]; [reflexivity | exact IH]. Qed.

(** The extractor on a text that is one header followed by a clean run. *)
Lemma parse_single_brief (ds v : string) :
  all_digits ds = true -> ds <> "" -> within_digit_limit ds = true ->
  no_boundary v = true -> rstrip v = v ->
  parse_slide_briefs (header_text ds ++ v)
  = Returns
      [ {| brief_slide_number := decimal ds; brief := header_text ds ++ v |} ].
Proof.
  intros Hd Hne Hlim Hb Hr.
  unfold parse_slide_briefs, findall_slide_pattern.
  rewrite fold_left_briefs. cbn [app].
  change (header_text ds ++ v) with (String "#" (header_tail ds ++ v)) at 1 2.
  cbn [findall_skip]. unfold match_slide_pattern.
  change (String "#" (header_tail ds ++ v)) with (header_text ds ++ v).
  rewrite (match_header_intro ds v Hd Hne), (lazy_until_clean v Hb Hr).
  rewrite findall_skip_drop.
  replace (String.length (header_text ds ++ v) - 1)%nat
    with (String.length (header_tail ds ++ v))
    by (unfold header_text; cbn [append String.length]; lia).
  rewrite drop_all. cbn [findall_skip flat_map app].
  unfold brief_of_match, digits_of_match.
  rewrite (search_header_here _ _ _ (match_header_intro ds v Hd Hne)).
  unfold over_limit. cbn [find app]. rewrite Hlim. cbn [negb].
  now rewrite strip_header, Hr.
Qed.

(** Every brief of the reference scan is a header followed by a span. *)
Lemma briefs_elements (s : string) (n : N) (sp : string) :
  In (n, sp) (Spec.briefs s) ->
  exists ds u,
    all_digits ds = true /\ ds <> "" /\ n = decimal ds
    /\ In ds (header_digits s)
    /\ sp = header_text ds ++ u /\ no_boundary u = true.
Proof.
  induction s as [|c s IH]; [intros []|].
  cbn [Spec.briefs header_digits]. unfold is_header, Spec.declared_number.
  destruct (match_header (String c s)) as [[ds after]|] eqn:Hm; [|exact IH].
  intros [H | H].
  2:{ destruct (IH H) as (ds' & u & Hd & Hne & Hn & Hin & Hsp & Hu).
      exists ds', u. repeat split; trivial. now right. }
  destruct (match_header_inv _ _ _ Hm) as (Hs & Hd & Hne).
  change (String c s = String "#" (header_tail ds ++ after)) in Hs.
  apply String_inj in Hs as [-> ->].
  apply pair_equal_spec in H as [<- <-]. clear IH Hm.
  exists ds, (Spec.span_until_boundary after).
  repeat split; trivial; [now left| |apply span_no_boundary].
  rewrite (span_header_tail ds after Hd). reflexivity.
Qed.

Lemma parsed_brief_shape (s : string) (bs : list Brief) (b : Brief) :
  parse_slide_briefs s = Returns bs -> In b bs ->
  exists ds v,
    all_digits ds = true /\ ds <> "" /\ within_digit_limit ds = true
    /\ no_boundary v = true /\ rstrip v = v
    /\ b = {| brief_slide_number := decimal ds;
              brief := header_text ds ++ v |}.
Proof.
  intros Hparse. apply parse_slide_briefs_returns in Hparse as [Hlim ->].
  rewrite in_map_iff. intros ([n sp] & <- & Hin).
  destruct (briefs_elements s n sp Hin)
    as (ds & u & Hd & Hne & -> & Hds & -> & Hu).
  exists ds, (rstrip u). repeat split; trivial.
  - pose proof (find_none _ _ Hlim ds Hds) as H.
    now apply negb_false_iff in H.
  - destruct (rstrip_is_prefix u) as [w Hw]. rewrite Hw in Hu.
    exact (no_boundary_prefix _ _ Hu).
  - apply rstrip_idempotent.
  - unfold brief_of_span. cbn [fst snd]. now rewrite strip_header.
Qed.

(** X13. Extraction is idempotent on its own output: running the extractor
    on the text of any brief it returned gives back exactly that brief. *)
Theorem parse_of_a_brief_is_that_brief (s : string) (bs : list Brief)
  (b : Brief) :
  parse_slide_briefs s = Returns bs -> In b bs ->
  parse_slide_briefs (brief b) = Returns [b].
Proof.
  intros Hparse Hin.
  destruct (parsed_brief_shape s bs b Hparse Hin)
    as (ds & v & Hd & Hne & Hlim & Hb & Hr & ->).
  cbn [brief]. exact (parse_single_brief ds v Hd Hne Hlim Hb Hr).
Qed.

Lemma header_text_append (ds x : string) :
  header_text ds ++ x = "## SLIDE " ++ ds ++ " BRIEF:" ++ x.
Proof.
  unfold header_text, header_tail. cbn [append]. do 9 f_equal.
  now rewrite append_assoc.
Qed.

Lemma contains_next_digits (ds x : string) :
  all_digits ds = true ->
  contains "## NEXT STEPS" (ds ++ x) = contains "## NEXT STEPS" x.
Proof.
  induction ds as [|c d IH]; intros Hd; [reflexivity|].
  cbn [all_digits] in Hd. apply andb_true_iff in Hd as [Hc Hd].
  cbn [append contains]. rewrite (IH Hd).
  assert (Hne : Ascii.eqb "#" c = false)
    by (destruct (Ascii.eqb_spec "#" c) as [<-|_]; [discriminate|reflexivity]).
  unfold startswith at 1. cbn [strip_prefix]. now rewrite Hne.
Qed.

Lemma contains_next_clean (v : string) :
  no_boundary v = true -> contains "## NEXT STEPS" v = false.
Proof.
  induction v as [|c v IH]; [reflexivity|].
  cbn [no_boundary contains]. intros H.
  apply andb_true_iff in H as [Hb Hrest]. apply negb_true_iff in Hb.
  unfold Spec.is_boundary in Hb. apply orb_false_iff in Hb as [_ Hn].
  now rewrite Hn, (IH Hrest).
Qed.

(** X14. Every brief that the extractor returns starts with its own header,
    whose digits give its slide number, has no whitespace at either end,
    holds exactly one brief header and never includes the next-steps
    marker. *)
Theorem brief_holds_one_header (s : string) (bs : list Brief) (b : Brief) :
  parse_slide_briefs s = Returns bs -> In b bs ->
  (exists ds rest,
     all_digits ds = true /\ ds <> ""
     /\ brief b = "## SLIDE " ++ ds ++ " BRIEF:" ++ rest
     /\ int ds = Returns (brief_slide_number b))
  /\ strip (brief b) = brief b
  /\ Spec.count_markers (brief b) = 1%nat
  /\ contains "## NEXT STEPS" (brief b) = false.
Proof.
  intros Hparse Hin.
  destruct (parsed_brief_shape s bs b Hparse Hin)
    as (ds & v & Hd & Hne & Hlim & Hb & Hr & ->).
  cbn [brief brief_slide_number]. split; [|split; [|split]].
  - exists ds, v. repeat split; trivial; [apply header_text_append|].
    unfold int. now rewrite Hlim.
  - now rewrite strip_header, Hr.
  - pose proof (parse_single_brief ds v Hd Hne Hlim Hb Hr) as Hone.
    apply parse_slide_briefs_returns in Hone as [_ Hone].
    rewrite <- briefs_count, <- (length_map brief_of_span), <- Hone.
    reflexivity.
  - rewrite header_text_append.
    change (contains "## NEXT STEPS" ("## SLIDE " ++ ds ++ " BRIEF:" ++ v))
      with (contains "## NEXT STEPS" (ds ++ " BRIEF:" ++ v)).
    rewrite (contains_next_digits ds _ Hd).
    change (contains "## NEXT STEPS" (" BRIEF:" ++ v))
      with (contains "## NEXT STEPS" v).
    exact (contains_next_clean v Hb).
Qed.

(** ** Further properties of the section extraction *)

Lemma lazy_until_split (stop : string -> bool) (s body rest : string) :
  lazy_until stop s = Some (body, rest) ->
  s = body ++ rest /\ stop rest = true.
Proof.
  revert body rest. induction s as [|c s IH]; intros body rest H;
    cbn [lazy_until] in H.
  - destruct (stop "") eqn:Hs; [|discriminate]. inversion H; subst.
    now split.
  - destruct (stop (String c s)) eqn:Hs.
    + inversion H; subst. now split.
    + destruct (lazy_until stop s) as [[b r]|]; [|discriminate].
      inversion H; subst. destruct (IH b rest eq_refl) as [-> Hr].
      now split.
Qed.

Lemma startswith_mono (lit p w : string) :
  startswith lit p = true -> startswith lit (p ++ w) = true.
Proof.
  unfold startswith. destruct (strip_prefix lit p) as [r|] eqn:H;
    [|discriminate].
  now rewrite (strip_prefix_mono _ _ w _ H).
Qed.

Lemma contains_mono (lit p w : string) :
  contains lit p = true -> contains lit (p ++ w) = true.
Proof.
  induction p as [|c p IH]; cbn [contains append]; intros H.
  - rewrite orb_false_r in H. apply (startswith_mono _ _ w) in H.
    cbn [append] in H. destruct w; cbn [contains]; now rewrite H.
  - apply orb_true_iff in H as [H | H]; apply orb_true_iff.
    + left. exact (startswith_mono _ _ w H).
    + right. exact (IH H).
Qed.

Lemma contains_cons (lit : string) (c : ascii) (x : string) :
  contains lit x = true -> contains lit (String c x) = true.
Proof. intros H. cbn [contains]. rewrite H. apply orb_true_r. Qed.

Lemma contains_lstrip (lit x : string) :
  contains lit (lstrip x) = true -> contains lit x = true.
Proof.
  induction x as [|c x IH]; [trivial|].
  cbn [lstrip]. destruct (is_space c); [|trivial].
  intros H. apply contains_cons. exact (IH H).
Qed.

Lemma contains_strip (lit x : string) :
  contains lit x = false -> contains lit (strip x) = false.
Proof.
  intros H. destruct (contains lit (strip x)) eqn:Hs; [|reflexivity].
  unfold strip in Hs. destruct (rstrip_is_prefix (lstrip x)) as [w Hw].
  apply (contains_mono _ _ w) in Hs. rewrite <- Hw in Hs.
  apply contains_lstrip in Hs. congruence.
Qed.

Lemma lazy_until_avoids (lit : string) (stop : string -> bool) :
  startswith lit "" = false ->
  (forall x, startswith lit x = true -> stop x = true) ->
  forall s body rest,
  lazy_until stop s = Some (body, rest) -> contains lit body = false.
Proof.
  intros Hne Hstop. induction s as [|c s IH]; intros body rest H.
  - destruct (lazy_until_split _ _ _ _ H) as [Hs _].
    destruct body; [|discriminate]. cbn [contains]. now rewrite Hne.
  - cbn [lazy_until] in H. destruct (stop (String c s)) eqn:Hc.
    + inversion H; subst. cbn [contains]. now rewrite Hne.
    + destruct (lazy_until stop s) as [[b r]|] eqn:Hl; [|discriminate].
      inversion H; subst. cbn [contains]. rewrite (IH b rest eq_refl).
      rewrite orb_false_r.
      destruct (startswith lit (String c b)) eqn:Hsw; [|reflexivity].
      destruct (lazy_until_split _ _ _ _ Hl) as [Hs _].
      apply (startswith_mono _ _ rest) in Hsw. cbn [append] in Hsw.
      rewrite <- Hs in Hsw. rewrite (Hstop _ Hsw) in Hc. discriminate.
Qed.

Lemma search_section_avoids (lit stoplit : string) (stop : string -> bool) :
  startswith stoplit "" = false ->
  (forall x, startswith stoplit x = true -> stop x = true) ->
  forall s g, search_section lit stop s = Some g -> contains stoplit g = false.
Proof.
  intros Hne Hstop. induction s as [|c s IH]; intros g H;
    cbn [search_section] in H.
  - destruct (strip_prefix lit "") as [after|]; [|discriminate].
    destruct (lazy_until stop after) as [[body rest]|] eqn:Hl;
      [|discriminate].
    inversion H; subst. exact (lazy_until_avoids _ _ Hne Hstop _ _ _ Hl).
  - destruct (strip_prefix lit (String c s)) as [after|]; [|exact (IH g H)].
    destruct (lazy_until stop after) as [[body rest]|] eqn:Hl;
      [|exact (IH g H)].
    inversion H; subst. exact (lazy_until_avoids _ _ Hne Hstop _ _ _ Hl).
Qed.

Lemma section_text_avoids (lit stoplit : string) (stop : string -> bool)
  (s : string) :
  startswith stoplit "" = false ->
  (forall x, startswith stoplit x = true -> stop x = true) ->
  contains stoplit (section_text lit stop s) = false.
Proof.
  intros Hne Hstop. unfold section_text.
  destruct (search_section lit stop s) as [g|] eqn:Hg.
  - apply contains_strip. exact (search_section_avoids _ _ _ Hne Hstop _ _ Hg).
  - cbn [contains]. now rewrite Hne.
Qed.

Lemma search_section_absent (lit : string) (stop : string -> bool) (s : string) :
  contains lit s = false -> search_section lit stop s = None.
Proof.
  induction s as [|c s IH]; cbn [contains search_section]; unfold startswith;
    intros H.
  - now destruct (strip_prefix lit "").
  - apply orb_false_iff in H as [H Hs].
    destruct (strip_prefix lit (String c s)); [discriminate | exact (IH Hs)].
Qed.

(** X15. The head of the final document is the fixed layout around four
    sections of the master output, and each section ends before its closing
    marker: the executive summary never contains [##] (so it is cut at its
    first sub-heading), the brand research never contains the deck
    architecture heading, the architecture never the design system heading,
    the design system never the slide briefs heading. A section whose
    heading does not occur is empty. *)
Theorem fixed_sections_end_at_markers (s : string) :
  fixed_sections s
  = final_layout (executive_summary_of s) (brand_research_of s)
      (architecture_of s) (design_system_of s)
  /\ contains "##" (executive_summary_of s) = false
  /\ contains "## DECK ARCHITECTURE" (brand_research_of s) = false
  /\ contains "## DESIGN SYSTEM" (architecture_of s) = false
  /\ contains "## SLIDE BRIEFS" (design_system_of s) = false
  /\ (contains "## EXECUTIVE SUMMARY" s = false -> executive_summary_of s = "")
  /\ (contains "## BRAND RESEARCH" s = false -> brand_research_of s = "")
  /\ (contains "## DECK ARCHITECTURE" s = false -> architecture_of s = "")
  /\ (contains "## DESIGN SYSTEM" s = false -> design_system_of s = "").
Proof.
  split; [reflexivity|].
  unfold executive_summary_of, brand_research_of, architecture_of,
    design_system_of.
  repeat split;
    try (apply section_text_avoids;
         [reflexivity | intros x Hx; cbn beta; now rewrite Hx]);
    intros H; unfold section_text; now rewrite (search_section_absent _ _ _ H).
Qed.

Lemma strip_append_nl (b : string) : strip (b ++ nl) = strip b.
Proof.
  unfold strip. induction b as [|c b IH]; [reflexivity|].
  cbn [append lstrip]. destruct (is_space c); [exact IH|].
  exact (rstrip_append_nl (String c b)).
Qed.

Lemma lazy_dollar_or_Z (stoplit : string) :
  startswith stoplit "" = false ->
  forall s, exists b r,
    lazy_until (stop_dollar stoplit) s = Some (b, r)
    /\ (lazy_until (stop_Z stoplit) s = Some (b, r)
        \/ lazy_until (stop_Z stoplit) s = Some (b ++ nl, "")).
Proof.
  intros Hne. induction s as [|c s (b & r & Hd & Hz)].
  - exists "", "". unfold stop_dollar, stop_Z. cbn.
    rewrite Hne. split; [reflexivity | now left].
  - cbn [lazy_until]. unfold stop_dollar at 1, stop_Z at 1 3.
    destruct (startswith stoplit (String c s)) eqn:Hsw.
    + exists "", (String c s). cbn. split; [reflexivity | now left].
    + cbn [orb at_Z]. destruct (at_dollar (String c s)) eqn:Hdol.
      * exists "", (String c s). split; [reflexivity|]. right.
        destruct s; [|discriminate Hdol]. cbn [at_dollar] in Hdol.
        apply Ascii.eqb_eq in Hdol. subst c.
        cbn [lazy_until]. unfold stop_Z. cbn. now rewrite Hne.
      * rewrite Hd. exists (String c b), r. split; [reflexivity|].
        destruct Hz as [-> | ->]; [now left | now right].
Qed.

Lemma search_dollar_or_Z (stoplit lit : string) :
  startswith stoplit "" = false ->
  forall s,
  (search_section lit (stop_dollar stoplit) s = None
   /\ search_section lit (stop_Z stoplit) s = None)
  \/ exists b,
       search_section lit (stop_dollar stoplit) s = Some b
       /\ (search_section lit (stop_Z stoplit) s = Some b
           \/ search_section lit (stop_Z stoplit) s = Some (b ++ nl)).
Proof.
  intros Hne. induction s as [|c s IH]; cbn [search_section].
  - destruct (strip_prefix lit "") as [after|]; [|now left].
    destruct (lazy_dollar_or_Z stoplit Hne after) as (b & r & -> & [-> | ->]);
      right; exists b; split; auto.
  - destruct (strip_prefix lit (String c s)) as [after|]; [|exact IH].
    destruct (lazy_dollar_or_Z stoplit Hne after) as (b & r & -> & [-> | ->]);
      right; exists b; split; auto.
Qed.

Lemma section_text_dollar_Z (stoplit lit s : string) :
  startswith stoplit "" = false ->
  section_text lit (stop_dollar stoplit) s
  = section_text lit (stop_Z stoplit) s.
Proof.
  intros Hne. unfold section_text.
  destruct (search_dollar_or_Z stoplit lit Hne s)
    as [[-> ->] | (b & -> & [-> | ->])];
    [reflexivity | reflexivity | now rewrite strip_append_nl].
Qed.

(** X16. The context that every slide agent receives holds the same brand
    research and design system texts as the final document: the two
    functions search with different end anchors, which changes nothing once
    the sections are stripped. *)
Theorem agents_and_document_share_sections (s : string) :
  extract_brand_and_design_system s
  = context_layout (brand_research_of s) (design_system_of s)
  /\ fixed_sections s
     = final_layout (executive_summary_of s) (brand_research_of s)
         (architecture_of s) (design_system_of s).
Proof.
  split; [|reflexivity].
  unfold brand_research_of, design_system_of.
  change (fun s0 : string => startswith "## DECK ARCHITECTURE" s0 || at_Z s0)
    with (stop_Z "## DECK ARCHITECTURE").
  change (fun s0 : string => startswith "## SLIDE BRIEFS" s0 || at_Z s0)
    with (stop_Z "## SLIDE BRIEFS").
  rewrite <- (section_text_dollar_Z "## DECK ARCHITECTURE" _ s eq_refl),
          <- (section_text_dollar_Z "## SLIDE BRIEFS" _ s eq_refl).
  reflexivity.
Qed.

(** ** Independence of the completion order *)

Lemma slide_number_injective (l : list Result) :
  NoDup (map slide_number l) ->
  forall x y, In x l -> In y l -> slide_number x = slide_number y -> x = y.
Proof.
  induction l as [|a l IH]; intros Hnd x y Hx Hy Heq; [elim Hx|].
  cbn [map] in Hnd. inversion Hnd as [|? ? Hnotin Hnd']; subst.
  destruct Hx as [<- | Hx], Hy as [<- | Hy]; trivial.
  - elim Hnotin. rewrite Heq. now apply in_map.
  - elim Hnotin. rewrite <- Heq. now apply in_map.
  - now apply IH.
Qed.

Lemma sorted_permutation_unique (l1 : list Result) :
  forall l2,
  StronglySorted Spec.by_slide_number l1 ->
  StronglySorted Spec.by_slide_number l2 ->
  Permutation l1 l2 ->
  NoDup (map slide_number l1) ->
  l1 = l2.
Proof.
  induction l1 as [|a l1 IH]; intros l2 Hs1 Hs2 Hperm Hnd.
  - apply Permutation_nil in Hperm. now subst.
  - destruct l2 as [|b l2].
    { apply Permutation_sym, Permutation_nil in Hperm. discriminate. }
    inversion Hs1 as [|? ? Hs1' Ha]; subst.
    inversion Hs2 as [|? ? Hs2' Hb]; subst.
    assert (Hab : a = b).
    { apply (slide_number_injective (a :: l1) Hnd); [now left | |].
      - apply (Permutation_in _ (Permutation_sym Hperm)). now left.
      - assert (Hin_a : In a (b :: l2))
          by (apply (Permutation_in _ Hperm); now left).
        assert (Hin_b : In b (a :: l1))
          by (apply (Permutation_in _ (Permutation_sym Hperm)); now left).
        rewrite Forall_forall in Ha, Hb. unfold Spec.by_slide_number in *.
        destruct Hin_a as [<- | Hin_a]; [reflexivity|].
        destruct Hin_b as [<- | Hin_b]; [reflexivity|].
        specialize (Ha b Hin_b). specialize (Hb a Hin_a). lia. }
    subst b. f_equal.
    apply IH; trivial.
    + exact (Permutation_cons_inv Hperm).
    + cbn [map] in Hnd. now inversion Hnd.
Qed.

(** X17. When the briefs carry distinct slide numbers, the list returned by
    the dispatcher does not depend on the order in which the futures
    complete, nor on the number of workers: any two completion orders give
    the same list. *)
Theorem distinct_numbers_make_the_batch_deterministic
  (agent_env : nat -> AgentEnv)
  (as_completed1 as_completed2 : list Future -> list Future)
  (briefs : list Brief) (bd : string) (mw1 mw2 : nat) :
  (forall fs, Permutation (as_completed1 fs) fs) ->
  (forall fs, Permutation (as_completed2 fs) fs) ->
  NoDup (map brief_slide_number briefs) ->
  run_parallel_slide_agents agent_env as_completed1 briefs bd mw1
  = run_parallel_slide_agents agent_env as_completed2 briefs bd mw2.
Proof.
  intros H1 H2 Hnd.
  pose proof (dispatcher_permutation agent_env as_completed1 H1 briefs bd mw1)
    as Hp1.
  pose proof (dispatcher_permutation agent_env as_completed2 H2 briefs bd mw2)
    as Hp2.
  apply sorted_permutation_unique.
  - unfold run_parallel_slide_agents. apply sort_sorted.
  - unfold run_parallel_slide_agents. apply sort_sorted.
  - now rewrite Hp1, Hp2.
  - apply (Permutation_NoDup
             (Permutation_sym (Permutation_map slide_number Hp1))).
    now rewrite (proj1 (unit_results_shape agent_env bd briefs 0)).
Qed.

(** ** The company name in file names *)

Lemma has_char_append (c : ascii) (a b : string) :
  has_char c (a ++ b) = has_char c a || has_char c b.
Proof.
  induction a as [|x a IH]; [reflexivity|].
  cbn [append has_char]. now rewrite IH, orb_assoc.
Qed.

Lemma replace_char_removes (old : ascii) (new s : string) :
  has_char old new = false -> has_char old (replace_char old new s) = false.
Proof.
  intros Hnew. induction s as [|c s IH]; [reflexivity|].
  cbn [replace_char]. destruct (Ascii.eqb c old) eqn:Hc.
  - now rewrite has_char_append, Hnew, IH.
  - cbn [has_char]. now rewrite Hc, IH.
Qed.

Lemma replace_char_keeps_out (x old : ascii) (new s : string) :
  has_char x new = false -> has_char x s = false ->
  has_char x (replace_char old new s) = false.
Proof.
  intros Hnew. induction s as [|c s IH]; [reflexivity|].
  cbn [has_char replace_char]. intros H.
  apply orb_false_iff in H as [Hc Hs].
  destruct (Ascii.eqb c old).
  - now rewrite has_char_append, Hnew, (IH Hs).
  - cbn [has_char]. now rewrite Hc, (IH Hs).
Qed.

Lemma replace_char_keeps_in (x old : ascii) (new s : string) :
  x <> old -> has_char x s = true ->
  has_char x (replace_char old new s) = true.
Proof.
  intros Hx. induction s as [|c s IH]; [discriminate|].
  cbn [has_char replace_char]. intros H.
  destruct (Ascii.eqb c old) eqn:Hc.
  - apply Ascii.eqb_eq in Hc. subst c.
    apply orb_true_iff in H as [H | H].
    + apply Ascii.eqb_eq in H. now elim Hx.
    + rewrite has_char_append, (IH H). apply orb_true_r.
  - cbn [has_char]. apply orb_true_iff in H as [H | H].
    + now rewrite H.
    + rewrite (IH H). apply orb_true_r.
Qed.

Lemma replace_char_length (old : ascii) (new s : string) :
  (String.length new <= 1)%nat ->
  (String.length (replace_char old new s) <= String.length s)%nat.
Proof.
  intros Hnew. induction s as [|c s IH]; [apply le_n|].
  cbn [replace_char]. destruct (Ascii.eqb c old).
  - rewrite length_append. cbn [String.length]. lia.
  - cbn [String.length]. lia.
Qed.

(** X18. Whatever [str.lower] makes of the company name, the name that
    [save_results] puts into its file names contains no space and no
    parenthesis, is not longer than the lowered name, has every character
    of the lowered name other than these three, and has no character that
    the lowered name lacks, the hyphen apart. *)
Theorem company_safe_is_clean (lower : string -> string) (company : string) :
  has_char " " (company_safe lower company) = false
  /\ has_char "(" (company_safe lower company) = false
  /\ has_char ")" (company_safe lower company) = false
  /\ (String.length (company_safe lower company)
      <= String.length (lower company))%nat
  /\ (forall c : ascii,
        c <> " "%char -> c <> "("%char -> c <> ")"%char ->
        has_char c (lower company) = true ->
        has_char c (company_safe lower company) = true)
  /\ (forall c : ascii,
        c <> "-"%char ->
        has_char c (lower company) = false ->
        has_char c (company_safe lower company) = false).
Proof.
  unfold company_safe. repeat split.
  - do 2 (apply replace_char_keeps_out; [reflexivity|]).
    now apply replace_char_removes.
  - apply replace_char_keeps_out; [reflexivity|].
    now apply replace_char_removes.
  - now apply replace_char_removes.
  - pose proof (replace_char_length ")" ""
                  (replace_char "(" "" (replace_char " " "-" (lower company)))
                  (Nat.le_0_l 1)).
    pose proof (replace_char_length "(" ""
                  (replace_char " " "-" (lower company)) (Nat.le_0_l 1)).
    pose proof (replace_char_length " " "-" (lower company) (le_n 1)).
    lia.
  - intros c Hsp Hop Hcl Hc.
    do 3 (apply replace_char_keeps_in; [assumption|]). exact Hc.
  - intros c Hc Hlow.
    do 2 (apply replace_char_keeps_out; [reflexivity|]).
    apply replace_char_keeps_out; [|exact Hlow].
    cbn [has_char]. rewrite orb_false_r. apply Ascii.eqb_neq.
    intros H. now elim Hc.
Qed.

(** ** Phase 1 *)

Example master_prompt_filled :
  master_prompt_of "Plan [NUMBER] slides for [COMPANY_NAME] ([COMPANY_NAME])."
    "Atlassian" "" "" "" 10
  = "Plan 10 slides for Atlassian (Atlassian).".
Proof. reflexivity. Qed.

Lemma join_returns_iff (sep : string) (items : list (option string)) :
  (exists out, join sep items = Returns out) <-> ~ In None items.
Proof.
  unfold join. pose proof (join_from_raises sep items 0%N) as H.
  destruct (join_from sep 0 items) as [out|e].
  - split; [|intros _; now exists out].
    intros _ Hin. apply H in Hin. destruct Hin as [e He]. discriminate.
  - split; [intros [out Ho]; discriminate|].
    intros Hn. elim Hn. apply H. now exists e.
Qed.

Lemma texts_present (parts : list Part) :
  Forall has_text parts
  <-> ~ In None (map text (filter (fun part => negb (thought part)) parts))
      /\ ~ In None (map text (filter thought parts)).
Proof.
  unfold has_text. rewrite Forall_forall. split.
  - intros H. split; intros Hin; apply in_map_iff in Hin as (p & Ht & Hp);
      apply filter_In in Hp as [Hp _]; exact (H p Hp Ht).
  - intros [Ho Ht] p Hp Hnone.
    destruct (thought p) eqn:Hth.
    + apply Ht, in_map_iff. exists p. split; [exact Hnone|].
      apply filter_In. now split.
    + apply Ho, in_map_iff. exists p. split; [exact Hnone|].
      apply filter_In. split; [exact Hp | now rewrite Hth].
Qed.

(** X19. [run_master_planning] returns exactly when the template loads, the
    client is built, the service answers with a response that offers a list
    of parts ([candidates] not [None] and not empty, [content] and [parts]
    of the first candidate not [None]) and every part of that list, thought
    or not, has a text; in every other case the exception leaves the
    function. What it returns carries the float difference of the two
    clock readings, and [thoughts] is [None] exactly when the list has no
    thought. *)
Theorem run_master_planning_returns_iff (env : MasterEnv)
  (company content audience goal : string) (slide_count : N) :
  ((exists r,
      run_master_planning env company content audience goal slide_count
      = Returns r)
   <-> exists tmpl response ps,
         load_master_template env = Returns tmpl
         /\ new_master_client env = Returns tt
         /\ generate_master_content env
              (master_prompt_of tmpl company content audience goal slide_count)
            = Returns response
         /\ first_candidate_parts response = Returns ps
         /\ Forall has_text ps)
  /\ (forall r tmpl response ps,
        run_master_planning env company content audience goal slide_count
        = Returns r ->
        load_master_template env = Returns tmpl ->
        generate_master_content env
          (master_prompt_of tmpl company content audience goal slide_count)
        = Returns response ->
        first_candidate_parts response = Returns ps ->
        master_elapsed_time r
        = float_sub (master_clock env 1) (master_clock env 0)
        /\ (master_thoughts r = None <-> filter thought ps = [])).
Proof.
  unfold run_master_planning, bind. split.
  - destruct (load_master_template env) as [tmpl|e].
    2:{ split; [intros [r H]; discriminate|].
        intros (t & p & rs & H & _). discriminate. }
    destruct (new_master_client env) as [[]|e].
    2:{ split; [intros [r H]; discriminate|].
        intros (t & p & rs & _ & H & _). discriminate. }
    destruct (generate_master_content env _) as [response|e] eqn:Hgen.
    2:{ split; [intros [r H]; discriminate|].
        intros (t & p & rs & Ht & _ & H & _).
        inversion Ht; subst t. rewrite Hgen in H. discriminate. }
    destruct (first_candidate_parts response) as [ps|e] eqn:Hps.
    2:{ split; [intros [r H]; discriminate|].
        intros (t & p & rs & Ht & _ & H & Hp & _).
        inversion Ht; subst t. rewrite Hgen in H. inversion H; subst p.
        rewrite Hps in Hp. discriminate. }
    pose proof (join_returns_iff (nl ++ nl)
      (map text (filter (fun part => negb (thought part)) ps))) as Ho.
    pose proof (join_returns_iff (nl ++ nl)
      (map text (filter thought ps))) as Ht.
    split.
    + intros [r H]. exists tmpl, response, ps. repeat split; trivial.
      apply texts_present. split.
      * apply Ho. destruct (join _ _) as [out|]; [now exists out|].
        discriminate.
      * destruct (join (nl ++ nl)
                    (map text
                       (filter (fun part => negb (thought part)) ps)));
          [|discriminate].
        destruct (map text (filter thought ps)) as [|t0 ts] eqn:Hth;
          [intros []|].
        apply Ht. destruct (join _ (t0 :: ts)) as [out|]; [now exists out|].
        discriminate.
    + intros (t & p & rs & Htm & _ & Hg & Hp & Hall).
      inversion Htm; subst t. rewrite Hgen in Hg. inversion Hg; subst p.
      rewrite Hps in Hp. inversion Hp; subst rs.
      apply texts_present in Hall as [Hno Hnt].
      apply Ho in Hno as [out ->].
      destruct (map text (filter thought ps)) as [|t0 ts] eqn:Hth.
      * eexists. reflexivity.
      * apply Ht in Hnt as [joined ->]. eexists. reflexivity.
  - intros r tmpl response ps H Htm Hgen Hps.
    rewrite Htm in H. destruct (new_master_client env) as [[]|]; [|discriminate].
    rewrite Hgen, Hps in H.
    destruct (join _ _) as [out|]; [|discriminate].
    destruct (filter thought ps) as [|p0 ps'] eqn:Hth; cbn [map] in H.
    + inversion H; subst r. cbn. split; [reflexivity | now split].
    + destruct (join _ _) as [joined|]; [|discriminate].
      inversion H; subst r. cbn. split; [reflexivity|].
      split; intros; discriminate.
Qed.

(** ** Briefs are taken from the master output *)

Lemma occurs_in_trans (a b c : string) :
  Spec.occurs_in a b -> Spec.occurs_in b c -> Spec.occurs_in a c.
Proof.
  intros (p1 & q1 & ->) (p2 & q2 & ->).
  exists (p2 ++ p1), (q1 ++ q2). now rewrite !append_assoc.
Qed.

Lemma lstrip_is_suffix (x : string) : exists ws, x = ws ++ lstrip x.
Proof.
  induction x as [|c x [ws IH]]; [now exists ""|].
  cbn [lstrip]. destruct (is_space c); [|now exists ""].
  exists (String c ws). cbn [append]. now rewrite <- IH.
Qed.

Lemma strip_occurs (x : string) : Spec.occurs_in (strip x) x.
Proof.
  unfold strip. destruct (lstrip_is_suffix x) as [ws Hws].
  destruct (rstrip_is_prefix (lstrip x)) as [w Hw].
  exists ws, w. now rewrite <- Hw.
Qed.

Lemma briefs_occur (s : string) (n : N) (sp : string) :
  In (n, sp) (Spec.briefs s) -> Spec.occurs_in sp s.
Proof.
  induction s as [|c s IH]; [intros []|].
  cbn [Spec.briefs].
  assert (Htail : In (n, sp) (Spec.briefs s) ->
                  Spec.occurs_in sp (String c s)).
  { intros H. destruct (IH H) as (pre & post & Hs).
    exists (String c pre), post. cbn [append]. now rewrite <- Hs. }
  destruct (is_header (String c s)); [|exact Htail].
  intros [H | H]; [|exact (Htail H)].
  apply pair_equal_spec in H as [_ <-].
  destruct (span_is_prefix s) as [w Hw].
  exists "", w. cbn [append]. now rewrite <- Hw.
Qed.

(** X20. The extractor invents nothing: the text of every brief it returns
    occurs verbatim in the master output. *)
Theorem brief_occurs_in_master_output (s : string) (bs : list Brief)
  (b : Brief) :
  parse_slide_briefs s = Returns bs -> In b bs ->
  Spec.occurs_in (brief b) s.
Proof.
  intros Hparse. apply parse_slide_briefs_returns in Hparse as [_ ->].
  rewrite in_map_iff.
  intros ([n sp] & <- & Hin). unfold brief_of_span. cbn [brief snd].
  exact (occurs_in_trans _ _ _ (strip_occurs sp) (briefs_occur s n sp Hin)).
Qed.

End Further.

(** ** The further properties at concrete inputs *)

Section FurtherAtInputs.

Local Existing Instance exact_floats.

Example main_after_planning :
  let run := main (fun _ => "1.50")
               (run_master_planning Sample.planning "Atlassian" "" "" "" 10)
               Example.second_fails (fun fs => fs) in
  phase2_call_count (fst run) = 3%nat
  /\ exists summary,
       snd run = Returns (Some summary)
       /\ successful_slides (metadata summary) = 2%nat
       /\ failed_slides (metadata summary) = 1%nat.
Proof. cbn zeta. split; [reflexivity|]. eexists. repeat split. Qed.

Lemma setup_error_is_recorded_witness :
  let b := {| brief_slide_number := 2; brief := "## SLIDE 2 BRIEF: b" |} in
  (forall fs : list Future, Permutation (rev fs) fs)
  /\ nth_error Example.three_briefs 1 = Some b
  /\ run_slide_agent (Sample.no_template 1%nat) 2 "## SLIDE 2 BRIEF: b" ""
     = Raises (Exception "No such file")
  /\ In {| slide_number := 2;
           output := None;
           elapsed_time := None;
           success := false;
           error := Some "No such file" |}
        (run_parallel_slide_agents Sample.no_template (@rev Future)
           Example.three_briefs "" 5).
Proof.
  cbn zeta. split; [exact rev_permutation|]. do 2 (split; [reflexivity|]).
  exact (setup_error_is_recorded Sample.no_template (@rev Future)
           rev_permutation Example.three_briefs "" 5 1
           {| brief_slide_number := 2; brief := "## SLIDE 2 BRIEF: b" |}
           (Exception "No such file") eq_refl eq_refl).
Defined.

Lemma metadata_is_consistent_witness :
  exists md,
    save_results (fun _ => "1.50") Sample.empty_master Example.timed_results
      "doc" = Returns md
    /\ total_slides md = List.length Example.timed_results
    /\ (successful_slides md + failed_slides md)%nat = total_slides md
    /\ map (fun x : N * Q * bool => (fst (fst x), Some (snd (fst x)), snd x))
         (slide_times md)
       = map (fun r => (slide_number r, elapsed_time r, success r))
           Example.timed_results
    /\ master_planning_time md = master_elapsed_time Sample.empty_master
    /\ exists longest,
         (exists r, In r Example.timed_results
                    /\ elapsed_time r = Some longest)
         /\ (forall r t, In r Example.timed_results ->
               elapsed_time r = Some t -> t <= longest)
         /\ total_generation_time md
            = float_add (master_planning_time md) longest.
Proof.
  eexists. split; [reflexivity|].
  exact (metadata_is_consistent (fun _ => "1.50") Sample.empty_master
           Example.timed_results "doc" _ eq_refl).
Defined.

Lemma missing_elapsed_time_raises_witness :
  let r := {| slide_number := 2; output := None; elapsed_time := None;
              success := false; error := Some "No such file" |} in
  In r Sample.untimed_results
  /\ elapsed_time r = None
  /\ parallel_speedup (fun _ => "") Sample.untimed_results
     = Raises (Exception "'elapsed_time'")
  /\ save_results (fun _ => "") Sample.empty_master Sample.untimed_results "doc"
     = Raises (Exception "'elapsed_time'").
Proof.
  cbn zeta. split; [right; left; reflexivity|]. split; [reflexivity|].
  exact (missing_elapsed_time_raises (fun _ => "") Sample.empty_master
           Sample.untimed_results "doc" _ (or_intror (or_introl eq_refl))
           eq_refl).
Defined.

Lemma zero_longest_time_raises_witness :
  map elapsed_time Sample.instant_results = map Some [0; 0]
  /\ py_max [0; 0] = Returns 0
  /\ 0 == 0
  /\ parallel_speedup (fun _ => "") Sample.instant_results
     = Raises (Exception "float division by zero")
  /\ save_results (fun _ => "") Sample.empty_master Sample.instant_results
       "doc" = Raises (Exception "float division by zero").
Proof.
  do 3 (split; [reflexivity|]).
  exact (zero_longest_time_raises (fun _ => "") Sample.empty_master
           Sample.instant_results "doc" [0; 0] 0 eq_refl eq_refl
           (Qeq_refl 0)).
Defined.

Lemma second_fails_sets_up (i : nat) : sets_up (Example.second_fails i).
Proof.
  destruct i as [|[|i]]; (split; [now exists "TEMPLATE" | reflexivity]).
Qed.

Lemma second_fails_clock_advances (i : nat) :
  clock_advances (Example.second_fails i).
Proof.
  assert (H : forall k, 0 < inject_Z (Z.of_nat (S k))).
  { intros k. unfold Qlt. cbn [Qnum Qden inject_Z]. lia. }
  destruct i as [|[|i]]; intros k; apply H.
Qed.

Lemma exact_difference_keeps_strict_order :
  @difference_keeps_strict_order exact_floats.
Proof.
  intros x y H. cbn. apply (Qplus_lt_l _ _ x). ring_simplify. exact H.
Qed.

Lemma main_completes_despite_failed_units_witness :
  let run := main (fun _ => "1.50") (Returns Sample.duplicate_master)
               Example.second_fails (@rev Future) in
  let rs :=
    run_parallel_slide_agents Example.second_fails (@rev Future)
      Example.three_briefs
      (extract_brand_and_design_system (master_output Sample.duplicate_master))
      5 in
  (forall fs : list Future, Permutation (rev fs) fs)
  /\ difference_keeps_strict_order
  /\ parse_slide_briefs (master_output Sample.duplicate_master)
     = Returns Example.three_briefs
  /\ Example.three_briefs <> []
  /\ (forall i, sets_up (Example.second_fails i))
  /\ (forall i, clock_advances (Example.second_fails i))
  /\ (exists summary,
        snd run = Returns (Some summary)
        /\ final_document summary
           = fixed_sections (master_output Sample.duplicate_master)
             ++ concat_all (map Spec.block_of rs) ++ production_notes
        /\ total_slides (metadata summary)
           = Spec.count_markers (master_output Sample.duplicate_master))
  /\ In AssemblerRun (fst run)
  /\ In SaveResults (fst run).
Proof.
  assert (Hne : Example.three_briefs <> []) by discriminate.
  cbn zeta. split; [exact rev_permutation|].
  split; [exact exact_difference_keeps_strict_order|].
  split; [reflexivity|].
  split; [exact Hne|].
  split; [exact second_fails_sets_up|].
  split; [exact second_fails_clock_advances|].
  exact (main_completes_despite_failed_units (fun _ => "1.50")
           Example.second_fails (@rev Future) rev_permutation
           Sample.duplicate_master Example.three_briefs
           exact_difference_keeps_strict_order eq_refl Hne
           second_fails_sets_up second_fails_clock_advances).
Defined.

Lemma run_fails_when_a_unit_cannot_set_up_witness :
  let b := {| brief_slide_number := 2; brief := "## SLIDE 2 BRIEF: b" |} in
  let run := main (fun _ => "") (Returns Sample.duplicate_master)
               Sample.no_template (@rev Future) in
  (forall fs : list Future, Permutation (rev fs) fs)
  /\ parse_slide_briefs (master_output Sample.duplicate_master)
     = Returns Example.three_briefs
  /\ nth_error Example.three_briefs 1 = Some b
  /\ run_slide_agent (Sample.no_template 1%nat) (brief_slide_number b)
       (brief b)
       (extract_brand_and_design_system
          (master_output Sample.duplicate_master))
     = Raises (Exception "No such file")
  /\ snd run = Raises (Exception "'elapsed_time'")
  /\ In AssemblerRun (fst run)
  /\ In SaveResults (fst run).
Proof.
  cbn zeta. split; [exact rev_permutation|]. do 3 (split; [reflexivity|]).
  exact (run_fails_when_a_unit_cannot_set_up (fun _ => "") Sample.no_template
           (@rev Future) rev_permutation Sample.duplicate_master
           Example.three_briefs 1
           {| brief_slide_number := 2; brief := "## SLIDE 2 BRIEF: b" |}
           (Exception "No such file") eq_refl eq_refl eq_refl).
Defined.

Lemma parse_of_a_brief_is_that_brief_witness :
  let b := {| brief_slide_number := 2; brief := "## SLIDE 2 BRIEF: b" |} in
  parse_slide_briefs Example.duplicate_markers = Returns Example.three_briefs
  /\ In b Example.three_briefs
  /\ parse_slide_briefs (brief b) = Returns [b].
Proof.
  cbn zeta.
  assert (Hin : In {| brief_slide_number := 2; brief := "## SLIDE 2 BRIEF: b" |}
                  Example.three_briefs)
    by (right; left; reflexivity).
  split; [reflexivity|]. split; [exact Hin|].
  exact (parse_of_a_brief_is_that_brief Example.duplicate_markers
           Example.three_briefs _ eq_refl Hin).
Defined.

Lemma brief_holds_one_header_witness :
  let b := {| brief_slide_number := 2; brief := "## SLIDE 2 BRIEF: b" |} in
  parse_slide_briefs Example.duplicate_markers = Returns Example.three_briefs
  /\ In b Example.three_briefs
  /\ (exists ds rest,
        all_digits ds = true /\ ds <> ""
        /\ brief b = "## SLIDE " ++ ds ++ " BRIEF:" ++ rest
        /\ int ds = Returns (brief_slide_number b))
  /\ strip (brief b) = brief b
  /\ Spec.count_markers (brief b) = 1%nat
  /\ contains "## NEXT STEPS" (brief b) = false.
Proof.
  cbn zeta.
  assert (Hin : In {| brief_slide_number := 2; brief := "## SLIDE 2 BRIEF: b" |}
                  Example.three_briefs)
    by (right; left; reflexivity).
  split; [reflexivity|]. split; [exact Hin|].
  exact (brief_holds_one_header Example.duplicate_markers
           Example.three_briefs _ eq_refl Hin).
Defined.

Lemma distinct_numbers_make_the_batch_deterministic_witness :
  let briefs :=
    [ {| brief_slide_number := 1; brief := "## SLIDE 1 BRIEF: a" |};
      {| brief_slide_number := 2; brief := "## SLIDE 2 BRIEF: b" |} ] in
  (forall fs : list Future, Permutation (rev fs) fs)
  /\ (forall fs : list Future, Permutation fs fs)
  /\ NoDup (map brief_slide_number briefs)
  /\ run_parallel_slide_agents Example.second_fails (@rev Future) briefs "" 5
     = run_parallel_slide_agents Example.second_fails (fun fs => fs) briefs
         "" 1.
Proof.
  assert (Hnd : NoDup (map brief_slide_number
                         [ {| brief_slide_number := 1;
                              brief := "## SLIDE 1 BRIEF: a" |};
                           {| brief_slide_number := 2;
                              brief := "## SLIDE 2 BRIEF: b" |} ])).
  { repeat constructor; cbn; intuition discriminate. }
  cbn zeta. split; [exact rev_permutation|].
  split; [intros fs; apply Permutation_refl|]. split; [exact Hnd|].
  exact (distinct_numbers_make_the_batch_deterministic Example.second_fails
           (@rev Future) (fun fs => fs) _ "" 5 1 rev_permutation
           (fun fs => Permutation_refl fs) Hnd).
Defined.

Lemma brief_occurs_in_master_output_witness :
  let b := {| brief_slide_number := 2; brief := "## SLIDE 2 BRIEF: b" |} in
  parse_slide_briefs Example.duplicate_markers = Returns Example.three_briefs
  /\ In b Example.three_briefs
  /\ Spec.occurs_in (brief b) Example.duplicate_markers.
Proof.
  cbn zeta.
  assert (Hin : In {| brief_slide_number := 2; brief := "## SLIDE 2 BRIEF: b" |}
                  Example.three_briefs)
    by (right; left; reflexivity).
  split; [reflexivity|]. split; [exact Hin|].
  exact (brief_occurs_in_master_output Example.duplicate_markers
           Example.three_briefs _ eq_refl Hin).
Defined.

End FurtherAtInputs.
